(** * Networking Coach: a Rocq model of the templates, the UI state, the
      message history, the database schema and the edge function.

    JavaScript strings are sequences of UTF-16 code units; they are modelled
    as lists of [N].  Source literals are written with [js], which decodes
    the UTF-8 text of a literal and the escapes [\n] and [\'] the way the
    JavaScript lexer does, so that every literal below can be compared with
    the source text character by character. *)

From Stdlib Require Import String Ascii NArith Bool Lia PrimFloat.
From Stdlib Require Import DecimalString.
From Stdlib Require Import List.
Import ListNotations.

Set Warnings "-register-all".
Local Open Scope N_scope.
Local Open Scope list_scope.

(* ================================================================== *)
(** * JavaScript strings and values *)
(* ================================================================== *)

Module JS.

Definition jsstring := list N.

(** Decoding of a source literal into code units, one byte of its UTF-8
    text at a time.  A backslash escapes the next character: [\n] is a
    line feed and [\'] an apostrophe (the sources use no other escape).
    A lead byte of a two or three byte sequence yields the code point of
    the Basic Multilingual Plane it starts, and the continuation bytes
    that follow it yield nothing. *)
Inductive Lexer := Plain | Escaped.

Definition byte_at (s : string) (i : nat) : N :=
  match String.get i s with
  | Some c => N_of_ascii c
  | None => 0
  end.

Definition unit_at (st : Lexer) (c : ascii) (r : string) (rest : jsstring)
  : jsstring :=
  let n := N_of_ascii c in
  match st with
  | Escaped => (if n =? 110 then 10 else n) :: rest
  | Plain =>
      if n =? 92 then rest
      else if n <? 128 then n :: rest
      else if n <? 192 then rest
      else if n <? 224 then
        ((n - 192) * 64 + (byte_at r 0 - 128)) :: rest
      else
        ((n - 224) * 4096 + (byte_at r 0 - 128) * 64
         + (byte_at r 1 - 128)) :: rest
  end.

Definition after (st : Lexer) (c : ascii) : Lexer :=
  match st with
  | Escaped => Plain
  | Plain => if N_of_ascii c =? 92 then Escaped else Plain
  end.

Fixpoint js_from (st : Lexer) (s : string) : jsstring :=
  match s with
  | EmptyString => []
  | String c r => unit_at st c r (js_from (after st c) r)
  end.

Definition js (s : string) : jsstring := js_from Plain s.

Definition string_eqb (a b : jsstring) : bool :=
  if list_eq_dec N.eq_dec a b then true else false.

(** ToBoolean on a string: the empty string is the only falsy one. *)
Definition truthy_string (s : jsstring) : bool :=
  match s with [] => false | _ :: _ => true end.

(** [a && b] on strings: the first operand when it is falsy, else the second. *)
Definition and_string (a b : jsstring) : jsstring :=
  if truthy_string a then b else a.

(** WhiteSpace and LineTerminator code points, the ones [String.prototype.trim]
    removes: TAB, LF, VT, FF, CR, SP, NBSP, U+1680, U+2000..U+200A, U+2028,
    U+2029, U+202F, U+205F, U+3000 and U+FEFF. *)
Definition is_white_space (c : N) : bool :=
  ((9 <=? c) && (c <=? 13)) || (c =? 32) || (c =? 160) || (c =? 5760)
  || ((8192 <=? c) && (c <=? 8202)) || (c =? 8232) || (c =? 8233)
  || (c =? 8239) || (c =? 8287) || (c =? 12288) || (c =? 65279).

Fixpoint trimStart (s : jsstring) : jsstring :=
  match s with
  | c :: r => if is_white_space c then trimStart r else s
  | [] => []
  end.

Definition trimEnd (s : jsstring) : jsstring := rev (trimStart (rev s)).

Definition trim (s : jsstring) : jsstring := trimEnd (trimStart s).

End JS.
Import JS.

(* ================================================================== *)
(** * Template patterns *)
(* ================================================================== *)

(** A fixed string pattern: literal segments interleaved with placeholders
    taken from a set [F] of fields. *)
Module Pattern.

Inductive segment (F : Type) : Type :=
| Lit (s : jsstring)
| Hole (f : F).
Arguments Lit {F} s.
Arguments Hole {F} f.

Definition fill {F} (value : F -> jsstring) (g : segment F) : jsstring :=
  match g with
  | Lit s => s
  | Hole f => value f
  end.

Definition interpolate {F} (value : F -> jsstring) (p : list (segment F))
  : jsstring :=
  concat (map (fill value) p).

End Pattern.
Import Pattern.

(* ================================================================== *)
(** * src/components/NetworkingCoach.tsx *)
(* ================================================================== *)

Module NetworkingCoach.

Inductive MessageType :=
| linkedin | informational | recruiter_followup | mentor_request.

(** The string each member of the union type stands for. *)
Definition MessageType_string (t : MessageType) : jsstring :=
  match t with
  | linkedin => js "linkedin"
  | informational => js "informational"
  | recruiter_followup => js "recruiter-followup"
  | mentor_request => js "mentor-request"
  end.

Record MessageData := {
  recipientName : jsstring;
  recipientTitle : jsstring;
  company : jsstring;
  purpose : jsstring;
  messageType : MessageType
}.

Inductive Icon := Users | MessageCircle | Mail.

Record TemplateEntry := {
  title : jsstring;
  icon : Icon;
  description : jsstring;
  template : MessageData -> jsstring
}.

Definition linkedin_template (data : MessageData) : jsstring :=
  js "Hi "
  ++ recipientName data
  ++ js ",\n\nI'm a student and came across your profile. I was impressed by your work at "
  ++ company data
  ++ js ". "
  ++ purpose data
  ++ js "\n\nI'd love to connect and learn from your experience in the field.\n\nBest regards".

Definition informational_template (data : MessageData) : jsstring :=
  js "Subject: Informational Interview Request\n\nDear "
  ++ recipientName data
  ++ js ",\n\nI hope this email finds you well. I'm a student and discovered your profile through LinkedIn. I was impressed by your career journey at "
  ++ company data
  ++ js ".\n\n"
  ++ purpose data
  ++ js "\n\nI would be incredibly grateful for 15-20 minutes of your time to learn about your experience and gain insights into the industry. I'm particularly interested in understanding:\n\n• Your career path and key decisions\n• Advice for someone entering the field\n• Current trends and challenges in the industry\n\nI'm flexible with timing and happy to work around your schedule. Would a brief phone call or video chat be possible in the coming weeks?\n\nThank you for considering my request. I understand you have a busy schedule and truly appreciate any time you can spare.\n\nBest regards".

Definition recruiter_followup_template (data : MessageData) : jsstring :=
  js "Subject: Following up on our conversation\n\nHi "
  ++ recipientName data
  ++ js ",\n\nThank you for taking the time to speak with me about opportunities at "
  ++ company data
  ++ js ". "
  ++ purpose data
  ++ js "\n\nI wanted to follow up and reiterate my strong interest in joining your team. Based on our conversation, I'm even more excited about the possibility of contributing to "
  ++ company data
  ++ js "'s mission.\n\nI've attached my updated resume and would be happy to provide any additional information you might need. Please let me know if there are any next steps I should be aware of.\n\nI look forward to hearing from you.\n\nBest regards".

Definition mentor_request_template (data : MessageData) : jsstring :=
  js "Subject: Mentorship Opportunity\n\nDear "
  ++ recipientName data
  ++ js ",\n\nI hope you're doing well. I'm a student and came across your profile. I was inspired by your career achievements at "
  ++ company data
  ++ js ".\n\n"
  ++ purpose data
  ++ js "\n\nI'm writing to inquire about the possibility of a mentoring relationship. I'm passionate about growing in this field and would greatly value guidance from someone with your experience and expertise.\n\nI understand that mentoring is a significant commitment, and I want to assure you that I would:\n\n• Come prepared to our conversations with specific questions\n• Respect your time and schedule\n• Take action on the advice you provide\n• Keep you updated on my progress\n\nWould you be open to a brief conversation to discuss this possibility? I'm happy to accommodate your schedule and preferred communication method.\n\nThank you for considering this request.\n\nRespectfully".

Definition messageTemplates (key : MessageType) : TemplateEntry :=
  match key with
  | linkedin =>
      {| title := js "LinkedIn Connection Request";
         icon := Users;
         description := js "Professional connection request for LinkedIn";
         template := linkedin_template |}
  | informational =>
      {| title := js "Informational Interview Request";
         icon := MessageCircle;
         description := js "Request a brief informational interview";
         template := informational_template |}
  | recruiter_followup =>
      {| title := js "Recruiter Follow-up";
         icon := Mail;
         description := js "Follow up after meeting with a recruiter";
         template := recruiter_followup_template |}
  | mentor_request =>
      {| title := js "Mentorship Request";
         icon := Users;
         description := js "Request ongoing mentorship relationship";
         template := mentor_request_template |}
  end.

(** ** Component state: the four [useState] cells *)

Record State := {
  messageData : MessageData;
  generatedMessage : jsstring;
  copied : bool;
  activeStep : N
}.

Definition initial : State :=
  {| messageData :=
       {| recipientName := [];
          recipientTitle := [];
          company := [];
          purpose := [];
          messageType := linkedin |};
     generatedMessage := [];
     copied := false;
     activeStep := 1 |}.

Definition setMessageData (f : MessageData -> MessageData) (st : State) :=
  {| messageData := f (messageData st);
     generatedMessage := generatedMessage st;
     copied := copied st;
     activeStep := activeStep st |}.

Definition setGeneratedMessage (m : jsstring) (st : State) :=
  {| messageData := messageData st;
     generatedMessage := m;
     copied := copied st;
     activeStep := activeStep st |}.

Definition setCopied (b : bool) (st : State) :=
  {| messageData := messageData st;
     generatedMessage := generatedMessage st;
     copied := b;
     activeStep := activeStep st |}.

Definition setActiveStep (n : N) (st : State) :=
  {| messageData := messageData st;
     generatedMessage := generatedMessage st;
     copied := copied st;
     activeStep := n |}.

(** Everything a handler does besides updating the state cells. *)
Inductive Callback := ResetCopied.

Inductive Effect :=
| ClipboardWriteText (text : jsstring)
| SetTimeout (callback : Callback) (ms : N)
| Toast (toast_title toast_description : jsstring).

(** Handlers read the state of the render they were created in ([st]) and
    return the next state together with the effects they performed. *)
Definition handleGenerate (st : State) : State * list Effect :=
  let entry := messageTemplates (messageType (messageData st)) in
  let message := template entry (messageData st) in
  (setActiveStep 3 (setGeneratedMessage message st), []).

Definition handleCopy (st : State) : State * list Effect :=
  (setCopied true st,
   [ ClipboardWriteText (generatedMessage st);
     SetTimeout ResetCopied 2000;
     Toast (js "Message copied!")
           (js "Your message has been copied to clipboard.") ]).

Definition isFormValid (st : State) : jsstring :=
  and_string (recipientName (messageData st)) (company (messageData st)).

Definition currentTemplate (st : State) : TemplateEntry :=
  messageTemplates (messageType (messageData st)).

(** [disabled={!isFormValid}] on the Generate Message button. *)
Definition generate_disabled (st : State) : bool :=
  negb (truthy_string (isFormValid st)).

(** The card holding the Copy button is rendered under
    [{generatedMessage && ...}]. *)
Definition copy_rendered (st : State) : bool :=
  truthy_string (generatedMessage st).

(** ** Events of the rendered component *)

Inductive Event :=
| ClickType (key : MessageType)
| ChangeRecipientName (value : jsstring)
| ChangeRecipientTitle (value : jsstring)
| ChangeCompany (value : jsstring)
| ChangePurpose (value : jsstring)
| ClickGenerate
| ClickCopy
| TimeoutFires (callback : Callback).

Definition with_messageType (key : MessageType) (prev : MessageData) :=
  {| recipientName := recipientName prev;
     recipientTitle := recipientTitle prev;
     company := company prev;
     purpose := purpose prev;
     messageType := key |}.

Definition with_recipientName (value : jsstring) (prev : MessageData) :=
  {| recipientName := value;
     recipientTitle := recipientTitle prev;
     company := company prev;
     purpose := purpose prev;
     messageType := messageType prev |}.

Definition with_recipientTitle (value : jsstring) (prev : MessageData) :=
  {| recipientName := recipientName prev;
     recipientTitle := value;
     company := company prev;
     purpose := purpose prev;
     messageType := messageType prev |}.

Definition with_company (value : jsstring) (prev : MessageData) :=
  {| recipientName := recipientName prev;
     recipientTitle := recipientTitle prev;
     company := value;
     purpose := purpose prev;
     messageType := messageType prev |}.

Definition with_purpose (value : jsstring) (prev : MessageData) :=
  {| recipientName := recipientName prev;
     recipientTitle := recipientTitle prev;
     company := company prev;
     purpose := value;
     messageType := messageType prev |}.

(** One event, handled by the handler the current render attached to it.
    A disabled button and a button that is not rendered handle nothing. *)
Definition dispatch (st : State) (ev : Event) : State * list Effect :=
  match ev with
  | ClickType key =>
      (setActiveStep (N.max (activeStep st) 1)
         (setMessageData (with_messageType key) st), [])
  | ChangeRecipientName value =>
      let st' := setMessageData (with_recipientName value) st in
      if truthy_string value && (activeStep st <? 2)
      then (setActiveStep 2 st', [])
      else (st', [])
  | ChangeRecipientTitle value =>
      (setMessageData (with_recipientTitle value) st, [])
  | ChangeCompany value =>
      (setMessageData (with_company value) st, [])
  | ChangePurpose value =>
      (setMessageData (with_purpose value) st, [])
  | ClickGenerate =>
      if generate_disabled st then (st, []) else handleGenerate st
  | ClickCopy =>
      if copy_rendered st then handleCopy st else (st, [])
  | TimeoutFires ResetCopied => (setCopied false st, [])
  end.

Definition step (st : State) (ev : Event) : State := fst (dispatch st ev).

Definition run (evs : list Event) (st : State) : State :=
  fold_left step evs st.

Definition reachable (st : State) : Prop :=
  exists evs, run evs initial = st.

End NetworkingCoach.

(* ================================================================== *)
(** * The variant of the component that also collects the student's own
      name, university and major *)
(* ================================================================== *)

Module NetworkingCoachStudent.

Import NetworkingCoach(MessageType, linkedin, informational,
                       recruiter_followup, mentor_request,
                       Icon, Users, MessageCircle, Mail).

Record MessageData := {
  recipientName : jsstring;
  recipientTitle : jsstring;
  company : jsstring;
  studentName : jsstring;
  university : jsstring;
  major : jsstring;
  purpose : jsstring;
  messageType : MessageType
}.

Record TemplateEntry := {
  title : jsstring;
  icon : Icon;
  template : MessageData -> jsstring
}.

Definition linkedin_template (data : MessageData) : jsstring :=
  js "Hi "
  ++ recipientName data
  ++ js ",\n\nI'm "
  ++ studentName data
  ++ js ", a "
  ++ major data
  ++ js " student at "
  ++ university data
  ++ js ". I came across your profile and was impressed by your work at "
  ++ company data
  ++ js ". "
  ++ purpose data
  ++ js "\n\nI'd love to connect and learn from your experience in the field.\n\nBest regards,\n"
  ++ studentName data.

Definition informational_template (data : MessageData) : jsstring :=
  js "Subject: Informational Interview Request - "
  ++ major data
  ++ js " Student at "
  ++ university data
  ++ js "\n\nDear "
  ++ recipientName data
  ++ js ",\n\nI hope this email finds you well. My name is "
  ++ studentName data
  ++ js ", and I'm a "
  ++ major data
  ++ js " student at "
  ++ university data
  ++ js ". I discovered your profile through LinkedIn and was impressed by your career journey at "
  ++ company data
  ++ js ".\n\n"
  ++ purpose data
  ++ js "\n\nI would be incredibly grateful for 15-20 minutes of your time to learn about your experience and gain insights into the industry. I'm particularly interested in understanding:\n\n• Your career path and key decisions\n• Advice for someone entering the field\n• Current trends and challenges in the industry\n\nI'm flexible with timing and happy to work around your schedule. Would a brief phone call or video chat be possible in the coming weeks?\n\nThank you for considering my request. I understand you have a busy schedule and truly appreciate any time you can spare.\n\nBest regards,\n"
  ++ studentName data
  ++ js "\n"
  ++ university data
  ++ js "\n[Your Phone Number]\n[Your Email]".

Definition recruiter_followup_template (data : MessageData) : jsstring :=
  js "Subject: Following up on our conversation - "
  ++ studentName data
  ++ js "\n\nHi "
  ++ recipientName data
  ++ js ",\n\nThank you for taking the time to speak with me about opportunities at "
  ++ company data
  ++ js ". "
  ++ purpose data
  ++ js "\n\nI wanted to follow up and reiterate my strong interest in joining your team. Based on our conversation, I'm even more excited about the possibility of contributing to "
  ++ company data
  ++ js "'s mission.\n\nI've attached my updated resume and would be happy to provide any additional information you might need. Please let me know if there are any next steps I should be aware of.\n\nI look forward to hearing from you.\n\nBest regards,\n"
  ++ studentName data
  ++ js "\n"
  ++ university data
  ++ js "\n[Your Phone Number]\n[Your Email]".

Definition mentor_request_template (data : MessageData) : jsstring :=
  js "Subject: Mentorship Opportunity - "
  ++ major data
  ++ js " Student at "
  ++ university data
  ++ js "\n\nDear "
  ++ recipientName data
  ++ js ",\n\nI hope you're doing well. My name is "
  ++ studentName data
  ++ js ", and I'm a "
  ++ major data
  ++ js " student at "
  ++ university data
  ++ js ". I came across your profile and was inspired by your career achievements at "
  ++ company data
  ++ js ".\n\n"
  ++ purpose data
  ++ js "\n\nI'm writing to inquire about the possibility of a mentoring relationship. I'm passionate about growing in this field and would greatly value guidance from someone with your experience and expertise.\n\nI understand that mentoring is a significant commitment, and I want to assure you that I would:\n\n• Come prepared to our conversations with specific questions\n• Respect your time and schedule\n• Take action on the advice you provide\n• Keep you updated on my progress\n\nWould you be open to a brief conversation to discuss this possibility? I'm happy to accommodate your schedule and preferred communication method.\n\nThank you for considering this request.\n\nRespectfully,\n"
  ++ studentName data
  ++ js "\n"
  ++ university data
  ++ js "\n[Your Phone Number]\n[Your Email]".

Definition messageTemplates (key : MessageType) : TemplateEntry :=
  match key with
  | linkedin =>
      {| title := js "LinkedIn Connection Request";
         icon := Users;
         template := linkedin_template |}
  | informational =>
      {| title := js "Informational Interview Request";
         icon := MessageCircle;
         template := informational_template |}
  | recruiter_followup =>
      {| title := js "Recruiter Follow-up";
         icon := Mail;
         template := recruiter_followup_template |}
  | mentor_request =>
      {| title := js "Mentorship Request";
         icon := Users;
         template := mentor_request_template |}
  end.

Record State := {
  messageData : MessageData;
  generatedMessage : jsstring;
  copied : bool
}.

Definition initial : State :=
  {| messageData :=
       {| recipientName := [];
          recipientTitle := [];
          company := [];
          studentName := [];
          university := [];
          major := [];
          purpose := [];
          messageType := linkedin |};
     generatedMessage := [];
     copied := false |}.

Definition setGeneratedMessage (m : jsstring) (st : State) :=
  {| messageData := messageData st;
     generatedMessage := m;
     copied := copied st |}.

Definition handleGenerate (st : State)
  : State * list NetworkingCoach.Effect :=
  let entry := messageTemplates (messageType (messageData st)) in
  let message := template entry (messageData st) in
  (setGeneratedMessage message st, []).

(** [disabled={!messageData.recipientName || !messageData.studentName}] *)
Definition generate_disabled (st : State) : bool :=
  negb (truthy_string (recipientName (messageData st)))
  || negb (truthy_string (studentName (messageData st))).

End NetworkingCoachStudent.

(* ================================================================== *)
(** * supabase/migrations: the schema, its constraints, triggers and
      row-level-security policies *)
(* ================================================================== *)

Module Schema.

(** A uuid is represented by its canonical text, a timestamp by a number.
    Every column holds an SQL value, [None] being NULL; NOT NULL is a
    constraint of the table like any other. *)
Definition UUID := jsstring.
Definition Timestamp := N.

(** *** Three-valued logic *)

Definition sql_eq (a b : option jsstring) : option bool :=
  match a, b with
  | Some x, Some y => Some (string_eqb x y)
  | _, _ => None
  end.

Definition sql_in (v : option jsstring) (l : list jsstring) : option bool :=
  match v with
  | Some x => Some (existsb (string_eqb x) l)
  | None => None
  end.

(** A WHERE clause and a policy expression accept a row only when they
    evaluate to true. *)
Definition is_true (v : option bool) : bool :=
  match v with Some true => true | _ => false end.

(** A CHECK constraint rejects a row only when it evaluates to false. *)
Definition check_satisfied (v : option bool) : bool :=
  match v with Some false => false | _ => true end.

Definition is_some {A} (v : option A) : bool :=
  match v with Some _ => true | None => false end.

(** *** Policies *)

Inductive Command := SELECT | INSERT | UPDATE | DELETE.

Definition Command_eqb (a b : Command) : bool :=
  match a, b with
  | SELECT, SELECT | INSERT, INSERT | UPDATE, UPDATE | DELETE, DELETE => true
  | _, _ => false
  end.

(** An expression of a policy reads [auth.uid()] and the row. *)
Definition Expr (Row : Type) := option UUID -> Row -> option bool.

Record Policy (Row : Type) := {
  policy_name : string;
  policy_for : Command;
  policy_using : option (Expr Row);
  policy_with_check : option (Expr Row)
}.
Arguments policy_name {Row}.
Arguments policy_for {Row}.
Arguments policy_using {Row}.
Arguments policy_with_check {Row}.

(** *** The three tables *)

Module Profiles.
Record row := {
  id : option UUID;
  user_id : option UUID;
  full_name : option jsstring;
  email : option jsstring;
  created_at : option Timestamp;
  updated_at : option Timestamp
}.

Definition not_null (r : row) : bool :=
  is_some (id r) && is_some (user_id r)
  && is_some (created_at r) && is_some (updated_at r).

Definition policies : list (Policy row) :=
  [ {| policy_name := "Users can view their own profile";
       policy_for := SELECT;
       policy_using := Some (fun auth_uid r => sql_eq auth_uid (user_id r));
       policy_with_check := None |};
    {| policy_name := "Users can create their own profile";
       policy_for := INSERT;
       policy_using := None;
       policy_with_check :=
         Some (fun auth_uid r => sql_eq auth_uid (user_id r)) |};
    {| policy_name := "Users can update their own profile";
       policy_for := UPDATE;
       policy_using := Some (fun auth_uid r => sql_eq auth_uid (user_id r));
       policy_with_check := None |} ].
End Profiles.

Module NetworkingMessages.
Record row := {
  id : option UUID;
  user_id : option UUID;
  message_type : option jsstring;
  recipient_name : option jsstring;
  recipient_title : option jsstring;
  company : option jsstring;
  purpose : option jsstring;
  generated_message : option jsstring;
  is_favorite : option bool;
  created_at : option Timestamp;
  updated_at : option Timestamp
}.

Definition not_null (r : row) : bool :=
  is_some (id r) && is_some (user_id r) && is_some (message_type r)
  && is_some (recipient_name r) && is_some (company r)
  && is_some (generated_message r)
  && is_some (created_at r) && is_some (updated_at r).

Definition message_type_values : list jsstring :=
  [ js "linkedin"; js "informational";
    js "recruiter-followup"; js "mentor-request" ].

(** CHECK (message_type IN (...)) *)
Definition message_type_check (r : row) : option bool :=
  sql_in (message_type r) message_type_values.

Definition policies : list (Policy row) :=
  [ {| policy_name := "Users can view their own messages";
       policy_for := SELECT;
       policy_using := Some (fun auth_uid r => sql_eq auth_uid (user_id r));
       policy_with_check := None |};
    {| policy_name := "Users can create their own messages";
       policy_for := INSERT;
       policy_using := None;
       policy_with_check :=
         Some (fun auth_uid r => sql_eq auth_uid (user_id r)) |};
    {| policy_name := "Users can update their own messages";
       policy_for := UPDATE;
       policy_using := Some (fun auth_uid r => sql_eq auth_uid (user_id r));
       policy_with_check := None |};
    {| policy_name := "Users can delete their own messages";
       policy_for := DELETE;
       policy_using := Some (fun auth_uid r => sql_eq auth_uid (user_id r));
       policy_with_check := None |} ].

(** [update_updated_at_column], the BEFORE UPDATE row trigger. *)
Definition update_updated_at_column (now : Timestamp) (NEW : row) : row :=
  {| id := id NEW;
     user_id := user_id NEW;
     message_type := message_type NEW;
     recipient_name := recipient_name NEW;
     recipient_title := recipient_title NEW;
     company := company NEW;
     purpose := purpose NEW;
     generated_message := generated_message NEW;
     is_favorite := is_favorite NEW;
     created_at := created_at NEW;
     updated_at := Some now |}.
End NetworkingMessages.

Module MessageAnalytics.
Record row := {
  id : option UUID;
  user_id : option UUID;
  message_id : option UUID;
  action_type : option jsstring;
  created_at : option Timestamp
}.

Definition not_null (r : row) : bool :=
  is_some (id r) && is_some (user_id r)
  && is_some (action_type r) && is_some (created_at r).

Definition action_type_values : list jsstring :=
  [ js "generated"; js "copied"; js "favorited"; js "viewed" ].

Definition action_type_check (r : row) : option bool :=
  sql_in (action_type r) action_type_values.

Definition policies : list (Policy row) :=
  [ {| policy_name := "Users can view their own analytics";
       policy_for := SELECT;
       policy_using := Some (fun auth_uid r => sql_eq auth_uid (user_id r));
       policy_with_check := None |};
    {| policy_name := "Users can create their own analytics";
       policy_for := INSERT;
       policy_using := None;
       policy_with_check :=
         Some (fun auth_uid r => sql_eq auth_uid (user_id r)) |} ].
End MessageAnalytics.

End Schema.

(* ================================================================== *)
(** * How the database engine applies the schema *)
(* ================================================================== *)

(** The migration is declarative; the behaviour it configures is that of
    the engine.  Foreign keys to [auth.users] are not modelled: the engine
    modelled here accepts every row the real one accepts.  The foreign
    key from [message_analytics] to [networking_messages] is modelled:
    see [insert_analytics] and, for its cascade, [Accounts]. *)
Module Database.

Import Schema.

Section RowSecurity.
Context {Row : Type}.
Variable policies : list (Policy Row).

(** Row-level security is enabled on every table and all policies are
    permissive: the policies of a command are OR-ed, and with no
    policy for a command nothing passes. *)
Definition using_of (p : Policy Row) (auth_uid : option UUID) (r : Row)
  : bool :=
  match policy_using p with
  | Some e => is_true (e auth_uid r)
  | None => false
  end.

(** A policy without WITH CHECK checks new rows with its USING. *)
Definition with_check_of (p : Policy Row) (auth_uid : option UUID)
  (r : Row) : bool :=
  match policy_with_check p with
  | Some e => is_true (e auth_uid r)
  | None => using_of p auth_uid r
  end.

Definition using_permits (c : Command) (auth_uid : option UUID) (r : Row)
  : bool :=
  existsb (fun p => Command_eqb (policy_for p) c && using_of p auth_uid r)
          policies.

Definition check_permits (c : Command) (auth_uid : option UUID) (r : Row)
  : bool :=
  existsb
    (fun p => Command_eqb (policy_for p) c && with_check_of p auth_uid r)
    policies.
End RowSecurity.

(** Who runs a statement: a client of the API, whose [auth.uid()] is NULL
    when nobody is signed in, or a role that is exempt from row security
    (the table owner, the service role). *)
Inductive Role :=
| Client (auth_uid : option UUID)
| BypassRLS.

Record Table (Row : Type) := {
  constraints : Row -> bool;
  primary_key : Row -> option UUID;
  before_update : Timestamp -> Row -> Row;
  policies : list (Policy Row)
}.
Arguments constraints {Row}.
Arguments primary_key {Row}.
Arguments before_update {Row}.
Arguments policies {Row}.

Inductive DbError :=
| RowSecurityViolation
| ConstraintViolation
| UniqueViolation
| ForeignKeyViolation
| ConnectionFailed.

Inductive Outcome (A : Type) :=
| Done (a : A)
| Failed (e : DbError).
Arguments Done {A} a.
Arguments Failed {A} e.

Section Statements.
Context {Row : Type}.
Variable T : Table Row.

Definition may_use (role : Role) (c : Command) (r : Row) : bool :=
  match role with
  | Client auth_uid => using_permits (policies T) c auth_uid r
  | BypassRLS => true
  end.

Definition may_write (role : Role) (c : Command) (r : Row) : bool :=
  match role with
  | Client auth_uid => check_permits (policies T) c auth_uid r
  | BypassRLS => true
  end.

Fixpoint unique_keys (rows : list Row) : bool :=
  match rows with
  | [] => true
  | r :: rest =>
      negb (existsb
              (fun r' => is_true (sql_eq (primary_key T r)
                                         (primary_key T r'))) rest)
      && unique_keys rest
  end.

(** SELECT ... WHERE w *)
Definition select (role : Role) (w : Row -> option bool)
  (rows : list Row) : list Row :=
  filter (fun r => is_true (w r) && may_use role SELECT r) rows.

(** INSERT of one row, its defaults already filled in. *)
Definition insert (role : Role) (new : Row) (rows : list Row)
  : Outcome (list Row) :=
  if negb (may_write role INSERT new) then Failed RowSecurityViolation
  else if negb (constraints T new) then Failed ConstraintViolation
  else if negb (unique_keys (rows ++ [new])) then Failed UniqueViolation
  else Done (rows ++ [new]).

(** The rows an UPDATE or DELETE with a WHERE clause acts on. *)
Definition targeted (role : Role) (c : Command) (w : Row -> option bool)
  (r : Row) : bool :=
  is_true (w r) && may_use role c r && may_use role SELECT r.

Definition update_row (role : Role) (now : Timestamp) (set : Row -> Row)
  (r : Row) : Outcome Row :=
  let new := before_update T now (set r) in
  if negb (may_write role UPDATE new) then Failed RowSecurityViolation
  else if negb (constraints T new) then Failed ConstraintViolation
  else Done new.

Fixpoint update_rows (role : Role) (now : Timestamp) (set : Row -> Row)
  (w : Row -> option bool) (rows : list Row) : Outcome (list Row) :=
  match rows with
  | [] => Done []
  | r :: rest =>
      let r' := if targeted role UPDATE w r
                then update_row role now set r
                else Done r in
      match r' with
      | Failed e => Failed e
      | Done r1 =>
          match update_rows role now set w rest with
          | Failed e => Failed e
          | Done rest1 => Done (r1 :: rest1)
          end
      end
  end.

(** UPDATE ... SET set WHERE w; a failure leaves the table as it was. *)
Definition update (role : Role) (now : Timestamp) (set : Row -> Row)
  (w : Row -> option bool) (rows : list Row) : Outcome (list Row) :=
  match update_rows role now set w rows with
  | Failed e => Failed e
  | Done rows1 =>
      if unique_keys rows1 then Done rows1 else Failed UniqueViolation
  end.

(** DELETE ... WHERE w *)
Definition delete (role : Role) (w : Row -> option bool)
  (rows : list Row) : list Row :=
  filter (fun r => negb (targeted role DELETE w r)) rows.
End Statements.

Definition networking_messages : Table NetworkingMessages.row :=
  {| constraints := fun r =>
       NetworkingMessages.not_null r
       && check_satisfied (NetworkingMessages.message_type_check r);
     primary_key := NetworkingMessages.id;
     before_update := NetworkingMessages.update_updated_at_column;
     policies := NetworkingMessages.policies |}.

Definition message_analytics : Table MessageAnalytics.row :=
  {| constraints := fun r =>
       MessageAnalytics.not_null r
       && check_satisfied (MessageAnalytics.action_type_check r);
     primary_key := MessageAnalytics.id;
     before_update := fun _ r => r;
     policies := MessageAnalytics.policies |}.

(** The statements a session can run against [networking_messages]. *)
Inductive Statement :=
| Insert (role : Role) (new : NetworkingMessages.row)
| Update (role : Role) (now : Timestamp)
         (set : NetworkingMessages.row -> NetworkingMessages.row)
         (w : NetworkingMessages.row -> option bool)
| Delete (role : Role) (w : NetworkingMessages.row -> option bool).

Definition execute (s : Statement) (rows : list NetworkingMessages.row)
  : list NetworkingMessages.row :=
  match s with
  | Insert role new =>
      match insert networking_messages role new rows with
      | Done rows1 => rows1
      | Failed _ => rows
      end
  | Update role now set w =>
      match update networking_messages role now set w rows with
      | Done rows1 => rows1
      | Failed _ => rows
      end
  | Delete role w => delete networking_messages role w rows
  end.

(** The table is created empty. *)
Definition history (stmts : list Statement) : list NetworkingMessages.row :=
  fold_left (fun rows s => execute s rows) stmts [].

Record Db := {
  messages_table : list NetworkingMessages.row;
  analytics_table : list MessageAnalytics.row
}.

(** [message_id UUID REFERENCES public.networking_messages(id)]: a
    message_id that is not NULL names a stored message.  The engine looks
    the message up whatever row security shows of it to the caller. *)
Definition references_message (a : MessageAnalytics.row)
  (stored : list NetworkingMessages.row) : bool :=
  match MessageAnalytics.message_id a with
  | None => true
  | Some _ =>
      existsb (fun r => is_true (sql_eq (MessageAnalytics.message_id a)
                                        (NetworkingMessages.id r)))
              stored
  end.

(** INSERT of one row into [message_analytics]: the checks of [insert],
    then the foreign key. *)
Definition insert_analytics (role : Role) (new : MessageAnalytics.row)
  (d : Db) : Outcome (list MessageAnalytics.row) :=
  match insert message_analytics role new (analytics_table d) with
  | Failed e => Failed e
  | Done rows1 =>
      if references_message new (messages_table d)
      then Done rows1
      else Failed ForeignKeyViolation
  end.

End Database.

(* ================================================================== *)
(** * The message history component *)
(* ================================================================== *)

Module MessageHistory.

Import Schema Database.
Module NM := Schema.NetworkingMessages.
Module MA := Schema.MessageAnalytics.

Record NetworkingMessage := {
  id : jsstring;
  message_type : jsstring;
  recipient_name : jsstring;
  recipient_title : option jsstring;
  company : jsstring;
  purpose : option jsstring;
  generated_message : jsstring;
  is_favorite : bool;
  created_at : jsstring
}.

Record State := {
  messages : list NetworkingMessage;
  loading : bool;
  copiedId : option jsstring
}.

Definition setMessages
  (f : list NetworkingMessage -> list NetworkingMessage) (st : State) :=
  {| messages := f (messages st);
     loading := loading st;
     copiedId := copiedId st |}.

Inductive Variant := Default | Destructive.

Record ToastCall := {
  toast_title : jsstring;
  toast_description : jsstring;
  toast_variant : Variant
}.

(** What a handler acts on: the database behind the client, the state of
    the component, and the toasts shown so far. *)
Record World := {
  db : Db;
  ui : State;
  toasts : list ToastCall
}.

(** What the surroundings decide during one call of a handler: who is
    signed in, whether each request reaches the API, the clock and the
    uuid the database draws for a new row. *)
Record Session := {
  auth_uid : option UUID;
  update_delivered : bool;
  insert_delivered : bool;
  now : Timestamp;
  fresh_uuid : UUID
}.

(** [{ ...m, is_favorite: v }] *)
Definition with_is_favorite (v : bool) (m : NetworkingMessage) :=
  {| id := id m;
     message_type := message_type m;
     recipient_name := recipient_name m;
     recipient_title := recipient_title m;
     company := company m;
     purpose := purpose m;
     generated_message := generated_message m;
     is_favorite := v;
     created_at := created_at m |}.

(** The SET list of [.update({ is_favorite: v })]. *)
Definition set_is_favorite (v : bool) (r : NM.row) : NM.row :=
  {| NM.id := NM.id r;
     NM.user_id := NM.user_id r;
     NM.message_type := NM.message_type r;
     NM.recipient_name := NM.recipient_name r;
     NM.recipient_title := NM.recipient_title r;
     NM.company := NM.company r;
     NM.purpose := NM.purpose r;
     NM.generated_message := NM.generated_message r;
     NM.is_favorite := Some v;
     NM.created_at := NM.created_at r;
     NM.updated_at := NM.updated_at r |}.

(** [.eq('id', value)] *)
Definition eq_id (value : jsstring) (r : NM.row) : option bool :=
  sql_eq (NM.id r) (Some value).

(** [supabase.from('networking_messages').update({ is_favorite: v })
    .eq('id', value)]: the [error] of the result, and the table after. *)
Definition update_is_favorite (s : Session) (v : bool) (value : jsstring)
  (rows : list NM.row) : Outcome (list NM.row) :=
  if update_delivered s
  then update networking_messages (Client (auth_uid s)) (now s)
              (set_is_favorite v) (eq_id value) rows
  else Failed ConnectionFailed.

(** [supabase.from('message_analytics').insert({ user_id, message_id,
    action_type })]; the handlers do not look at its result. *)
Definition track (s : Session) (message : NetworkingMessage)
  (action : jsstring) (d : Db) : list MA.row :=
  let new := {| MA.id := Some (fresh_uuid s);
                MA.user_id := auth_uid s;
                MA.message_id := Some (id message);
                MA.action_type := Some action;
                MA.created_at := Some (now s) |} in
  if insert_delivered s
  then match insert_analytics (Client (auth_uid s)) new d with
       | Done rows1 => rows1
       | Failed _ => analytics_table d
       end
  else analytics_table d.

Definition toggleFavorite (s : Session) (message : NetworkingMessage)
  (w : World) : World :=
  match update_is_favorite s (negb (is_favorite message)) (id message)
                           (messages_table (db w)) with
  | Failed _ =>
      {| db := db w;
         ui := ui w;
         toasts := toasts w ++
           [ {| toast_title := js "Error";
                toast_description := js "Failed to update favorite status.";
                toast_variant := Destructive |} ] |}
  | Done rows1 =>
      let ui1 :=
        setMessages
          (fun prev =>
             map (fun m =>
                    if string_eqb (id m) (id message)
                    then with_is_favorite (negb (is_favorite m)) m
                    else m) prev)
          (ui w) in
      let analytics1 :=
        track s message (js "favorited")
              {| messages_table := rows1;
                 analytics_table := analytics_table (db w) |} in
      {| db := {| messages_table := rows1; analytics_table := analytics1 |};
         ui := ui1;
         toasts := toasts w ++
           [ {| toast_title :=
                  if is_favorite message
                  then js "Removed from favorites"
                  else js "Added to favorites";
                toast_description :=
                  if is_favorite message
                  then js "Message removed from your favorites."
                  else js "Message saved to your favorites.";
                toast_variant := Default |} ] |}
  end.

(** The call succeeded when the update came back without an error. *)
Definition toggle_succeeds (s : Session) (message : NetworkingMessage)
  (w : World) : Prop :=
  exists rows1,
    update_is_favorite s (negb (is_favorite message)) (id message)
                       (messages_table (db w)) = Done rows1.

End MessageHistory.

(* ================================================================== *)
(** * The edge function generate-networking-message *)
(* ================================================================== *)

Module EdgeFunction.

(** ** JavaScript values, as [JSON.parse] builds them *)

Inductive Value :=
| VUndefined
| VNull
| VBoolean (b : bool)
| VNumber (x : float)
| VString (s : jsstring)
| VArray (items : list Value)
| VObject (props : list (jsstring * Value)).

(** ToBoolean *)
Definition truthy (v : Value) : bool :=
  match v with
  | VUndefined | VNull => false
  | VBoolean b => b
  | VNumber x => negb (PrimFloat.is_zero x || PrimFloat.is_nan x)
  | VString s => truthy_string s
  | VArray _ | VObject _ => true
  end.

Fixpoint own (props : list (jsstring * Value)) (name : jsstring) : Value :=
  match props with
  | [] => VUndefined
  | (k, v) :: rest => if string_eqb k name then v else own rest name
  end.

Definition N_to_jsstring (n : N) : jsstring :=
  js (NilEmpty.string_of_uint (N.to_uint n)).

(** The handler reads the properties named [messageType], [recipientName],
    [recipientTitle], [company], [purpose], [choices], [message] and
    [content], and the index [0]; no prototype defines any of them, so a
    read finds an own property or nothing. *)
Inductive Key :=
| Named (name : jsstring)
| Index (i : nat).

Definition prop (v : Value) (k : Key) : Value :=
  match v, k with
  | VObject props, Named name => own props name
  | VObject props, Index i => own props (N_to_jsstring (N.of_nat i))
  | VArray items, Index i => nth i items VUndefined
  | VString s, Index i =>
      match nth_error s i with
      | Some c => VString [c]
      | None => VUndefined
      end
  | _, _ => VUndefined
  end.

(** ** Completions: a value, or a thrown error with its [message] *)

Inductive Completion (A : Type) :=
| Normal (a : A)
| Throw (message : jsstring).
Arguments Normal {A} a.
Arguments Throw {A} message.

Definition bind {A B} (c : Completion A) (k : A -> Completion B)
  : Completion B :=
  match c with
  | Normal a => k a
  | Throw m => Throw m
  end.

Notation "x <- c ;; k" := (bind c (fun x => k))
  (at level 61, c at next level, right associativity).
Notation "c ;;; k" := (bind c (fun _ => k))
  (at level 61, right associativity).

(** The messages of the TypeErrors the engine raises are its own. *)
Record TypeErrorMessages := {
  cannot_destructure : Value -> jsstring;
  cannot_read_properties : Value -> Key -> jsstring;
  is_not_a_function : jsstring
}.

(** ** What the handler talks to *)

Record Params := {
  messageType : Value;
  recipientName : Value;
  recipientTitle : Value;
  company : Value;
  purpose : Value
}.

Record UpstreamResponse := {
  ok : bool;
  status : N;
  statusText : jsstring;
  text : Completion jsstring;
  json : Completion Value
}.

(** Writing to the console is not modelled.

    [fetch_completion key params] is the outcome of building the system
    and user prompts from the parameters and awaiting the [fetch] of the
    chat-completion endpoint with the key: the response, or an error
    thrown on the way. *)
Record World := {
  openAIApiKey : option jsstring;
  fetch_completion : jsstring -> Params -> Completion UpstreamResponse
}.

Record Request := {
  method : jsstring;
  req_json : Completion Value
}.

(** [body] is the value given to [JSON.stringify], [None] a null body. *)
Record Response := {
  resp_status : N;
  resp_headers : list (jsstring * jsstring);
  resp_body : option Value
}.

Definition corsHeaders : list (jsstring * jsstring) :=
  [ (js "Access-Control-Allow-Origin", js "*");
    (js "Access-Control-Allow-Headers",
     js "authorization, x-client-info, apikey, content-type") ].

Section Handler.
Variable tm : TypeErrorMessages.
Variable world : World.

Definition get (v : Value) (k : Key) : Completion Value :=
  match v with
  | VUndefined | VNull => Throw (cannot_read_properties tm v k)
  | _ => Normal (prop v k)
  end.

(** [const { messageType, ... } = v] *)
Definition destructure (v : Value) : Completion Params :=
  match v with
  | VUndefined | VNull => Throw (cannot_destructure tm v)
  | _ =>
      Normal {| messageType := prop v (Named (js "messageType"));
                recipientName := prop v (Named (js "recipientName"));
                recipientTitle := prop v (Named (js "recipientTitle"));
                company := prop v (Named (js "company"));
                purpose := prop v (Named (js "purpose")) |}
  end.

(** [v.trim()] *)
Definition call_trim (v : Value) : Completion jsstring :=
  match v with
  | VString s => Normal (trim s)
  | VUndefined | VNull =>
      Throw (cannot_read_properties tm v (Named (js "trim")))
  | _ => Throw (is_not_a_function tm)
  end.

(** From the parsed body of the upstream response to the reply. *)
Definition reply_with (data : Value) : Completion Response :=
  invalid <-
    (choices <- get data (Named (js "choices")) ;;
     if negb (truthy choices) then Normal true
     else
       first <- get choices (Index 0) ;;
       if negb (truthy first) then Normal true
       else
         message <- get first (Named (js "message")) ;;
         Normal (negb (truthy message))) ;;
  (if invalid : bool
   then Throw (js "Invalid response structure from OpenAI")
   else Normal tt) ;;;
  choices <- get data (Named (js "choices")) ;;
  first <- get choices (Index 0) ;;
  message <- get first (Named (js "message")) ;;
  generatedMessage <- get message (Named (js "content")) ;;
  empty <-
    (if negb (truthy generatedMessage) then Normal true
     else
       trimmed <- call_trim generatedMessage ;;
       Normal (string_eqb trimmed [])) ;;
  (if empty : bool
   then Throw (js "OpenAI returned an empty message")
   else Normal tt) ;;;
  trimmed <- call_trim generatedMessage ;;
  Normal {| resp_status := 200;
            resp_headers :=
              corsHeaders ++ [ (js "Content-Type", js "application/json") ];
            resp_body :=
              Some (VObject [ (js "success", VBoolean true);
                              (js "message", VString trimmed) ]) |}.

(** From the upstream response to the reply. *)
Definition relay (response : UpstreamResponse) : Completion Response :=
  (if negb (ok response)
   then errorData <- text response ;;
        Throw (js "OpenAI API error: " ++ N_to_jsstring (status response)
               ++ js " " ++ statusText response)
   else Normal tt) ;;;
  data <- json response ;;
  reply_with data.

(** The body of [try]: the three parts are one block in the source. *)
Definition try_block (req : Request) : Completion Response :=
  body <- req_json req ;;
  params <- destructure body ;;
  key <- match openAIApiKey world with
         | Some k =>
             if negb (truthy_string k)
             then Throw (js "OpenAI API key not configured")
             else Normal k
         | None => Throw (js "OpenAI API key not configured")
         end ;;
  response <- fetch_completion world key params ;;
  relay response.

Definition serve (req : Request) : Response :=
  if string_eqb (method req) (js "OPTIONS")
  then {| resp_status := 200;
          resp_headers := corsHeaders;
          resp_body := None |}
  else
    match try_block req with
    | Normal response => response
    | Throw message =>
        {| resp_status := 500;
           resp_headers :=
             corsHeaders ++ [ (js "Content-Type", js "application/json") ];
           resp_body :=
             Some (VObject [ (js "success", VBoolean false);
                             (js "error", VString message) ]) |}
    end.
End Handler.

End EdgeFunction.

(* ================================================================== *)
(** * Runs of the NetworkingCoach component and what they emit *)
(* ================================================================== *)

Module CoachRuns.

Import NetworkingCoach.

(** The effects performed along a sequence of events, in order. *)
Fixpoint effects (evs : list Event) (st : State) : list Effect :=
  match evs with
  | [] => []
  | ev :: rest => snd (dispatch st ev) ++ effects rest (step st ev)
  end.

End CoachRuns.

(* ================================================================== *)
(** * The form of the variant with student details *)
(* ================================================================== *)

Module StudentForm.

Import NetworkingCoachStudent.

Definition setMessageData (f : MessageData -> MessageData) (st : State) :=
  {| messageData := f (messageData st);
     generatedMessage := generatedMessage st;
     copied := copied st |}.

Definition setCopied (b : bool) (st : State) :=
  {| messageData := messageData st;
     generatedMessage := generatedMessage st;
     copied := b |}.

Definition handleCopy (st : State) : State * list NetworkingCoach.Effect :=
  (setCopied true st,
   [ NetworkingCoach.ClipboardWriteText (generatedMessage st);
     NetworkingCoach.SetTimeout NetworkingCoach.ResetCopied 2000;
     NetworkingCoach.Toast
       (js "Message copied!")
       (js "Your message has been copied to clipboard.") ]).

(** The card holding the Copy button is rendered under
    [{generatedMessage && ...}]. *)
Definition copy_rendered (st : State) : bool :=
  truthy_string (generatedMessage st).

Inductive Field :=
| FRecipientName | FRecipientTitle | FCompany
| FStudentName | FUniversity | FMajor | FPurpose.

(** [{ ...prev, <field>: value }] *)
Definition with_field (f : Field) (value : jsstring) (prev : MessageData) :=
  {| recipientName :=
       match f with FRecipientName => value | _ => recipientName prev end;
     recipientTitle :=
       match f with FRecipientTitle => value | _ => recipientTitle prev end;
     company := match f with FCompany => value | _ => company prev end;
     studentName :=
       match f with FStudentName => value | _ => studentName prev end;
     university :=
       match f with FUniversity => value | _ => university prev end;
     major := match f with FMajor => value | _ => major prev end;
     purpose := match f with FPurpose => value | _ => purpose prev end;
     messageType := messageType prev |}.

(** [{ ...prev, messageType: value }] *)
Definition with_messageType (value : NetworkingCoach.MessageType)
  (prev : MessageData) :=
  {| recipientName := recipientName prev;
     recipientTitle := recipientTitle prev;
     company := company prev;
     studentName := studentName prev;
     university := university prev;
     major := major prev;
     purpose := purpose prev;
     messageType := value |}.

(** The Select of the message type, the seven inputs, the two buttons and
    the timer of the Copy button. *)
Inductive Event :=
| SelectType (value : NetworkingCoach.MessageType)
| Change (f : Field) (value : jsstring)
| ClickGenerate
| ClickCopy
| TimeoutFires (callback : NetworkingCoach.Callback).

Definition dispatch (st : State) (ev : Event)
  : State * list NetworkingCoach.Effect :=
  match ev with
  | SelectType value => (setMessageData (with_messageType value) st, [])
  | Change f value => (setMessageData (with_field f value) st, [])
  | ClickGenerate =>
      if generate_disabled st then (st, []) else handleGenerate st
  | ClickCopy => if copy_rendered st then handleCopy st else (st, [])
  | TimeoutFires NetworkingCoach.ResetCopied => (setCopied false st, [])
  end.

Definition step (st : State) (ev : Event) : State := fst (dispatch st ev).

Definition run (evs : list Event) (st : State) : State :=
  fold_left step evs st.

End StudentForm.

(* ================================================================== *)
(** * The rest of the schema: profiles, their triggers, and cascades *)
(* ================================================================== *)

Module Accounts.

Import Schema Database.

(** A row of [auth.users], as far as the migration reads it.  The jsonb
    column is represented by its operator [->>]: for a key, the text of the
    field, or NULL. *)
Record auth_user := {
  au_id : UUID;
  au_email : option jsstring;
  raw_user_meta_data : jsstring -> option jsstring
}.

(** [update_updated_at_column], as the trigger of [profiles] runs it. *)
Definition update_updated_at_column (now : Timestamp) (NEW : Profiles.row)
  : Profiles.row :=
  {| Profiles.id := Profiles.id NEW;
     Profiles.user_id := Profiles.user_id NEW;
     Profiles.full_name := Profiles.full_name NEW;
     Profiles.email := Profiles.email NEW;
     Profiles.created_at := Profiles.created_at NEW;
     Profiles.updated_at := Some now |}.

(** The row [handle_new_user] inserts for a new user; [fresh] is the uuid
    the default of [id] draws and [now] the default of both timestamps. *)
Definition handle_new_user (fresh : UUID) (now : Timestamp) (NEW : auth_user)
  : Profiles.row :=
  {| Profiles.id := Some fresh;
     Profiles.user_id := Some (au_id NEW);
     Profiles.full_name := raw_user_meta_data NEW (js "full_name");
     Profiles.email := au_email NEW;
     Profiles.created_at := Some now;
     Profiles.updated_at := Some now |}.

(** The UNIQUE constraint on [user_id] is not modelled. *)
Definition profiles : Table Profiles.row :=
  {| constraints := Profiles.not_null;
     primary_key := Profiles.id;
     before_update := update_updated_at_column;
     policies := Profiles.policies |}.

(** DELETE on [networking_messages] with the cascade of
    [message_analytics.message_id]: the analytics rows that reference a
    deleted message go with it, whoever owns them. *)
Definition delete_messages (role : Role)
  (w : NetworkingMessages.row -> option bool) (d : Db) : Db :=
  let gone :=
    filter (targeted networking_messages role DELETE w) (messages_table d) in
  {| messages_table := delete networking_messages role w (messages_table d);
     analytics_table :=
       filter
         (fun a =>
            negb (existsb
                    (fun r => is_true (sql_eq (MessageAnalytics.message_id a)
                                              (NetworkingMessages.id r)))
                    gone))
         (analytics_table d) |}.

End Accounts.

(* ================================================================== *)
(** * The rest of the message history component *)
(* ================================================================== *)

Module HistoryHandlers.

Import Schema Database MessageHistory.

Record TypeInfo := {
  label : jsstring;
  type_icon : NetworkingCoach.Icon;
  color : jsstring
}.

(** [messageTypeLabels[key]]: the own properties of the object; no
    inherited property is a label. *)
Definition messageTypeLabels (key : jsstring) : option TypeInfo :=
  if string_eqb key (js "linkedin") then
    Some {| label := js "LinkedIn";
            type_icon := NetworkingCoach.Users;
            color := js "bg-blue-500" |}
  else if string_eqb key (js "informational") then
    Some {| label := js "Informational";
            type_icon := NetworkingCoach.MessageCircle;
            color := js "bg-green-500" |}
  else if string_eqb key (js "recruiter-followup") then
    Some {| label := js "Recruiter Follow-up";
            type_icon := NetworkingCoach.Mail;
            color := js "bg-purple-500" |}
  else if string_eqb key (js "mentor-request") then
    Some {| label := js "Mentorship";
            type_icon := NetworkingCoach.Users;
            color := js "bg-orange-500" |}
  else None.

Definition setCopiedId (v : option jsstring) (st : State) :=
  {| messages := messages st;
     loading := loading st;
     copiedId := v |}.

(** What a handler does to the browser besides the state and the toasts. *)
Inductive BrowserCall :=
| ClipboardWriteText (text : jsstring)
| SetTimeoutResetCopiedId (ms : N).

(** Whether the DELETE request reaches the API, and whether the browser
    lets the page write to the clipboard. *)
Record Surroundings := {
  session : Session;
  delete_delivered : bool;
  clipboard_granted : bool
}.

Definition handleCopy (e : Surroundings) (message : NetworkingMessage)
  (w : World) : World * list BrowserCall :=
  if clipboard_granted e then
    ({| db := {| messages_table := messages_table (db w);
                 analytics_table :=
                   track (session e) message (js "copied") (db w) |};
        ui := setCopiedId (Some (id message)) (ui w);
        toasts := toasts w ++
          [ {| toast_title := js "Message copied!";
               toast_description :=
                 js "Your message has been copied to clipboard.";
               toast_variant := Default |} ] |},
     [ ClipboardWriteText (generated_message message);
       SetTimeoutResetCopiedId 2000 ])
  else
    ({| db := db w;
        ui := ui w;
        toasts := toasts w ++
          [ {| toast_title := js "Copy failed";
               toast_description := js "Failed to copy message to clipboard.";
               toast_variant := Destructive |} ] |},
     [ ClipboardWriteText (generated_message message) ]).

(** [supabase.from('networking_messages').delete().eq('id', value)] *)
Definition delete_by_id (e : Surroundings) (value : jsstring) (d : Db)
  : Outcome Db :=
  if delete_delivered e
  then Done (Accounts.delete_messages (Client (auth_uid (session e)))
                                      (eq_id value) d)
  else Failed ConnectionFailed.

Definition deleteMessage (e : Surroundings) (message : NetworkingMessage)
  (w : World) : World :=
  match delete_by_id e (id message) (db w) with
  | Failed _ =>
      {| db := db w;
         ui := ui w;
         toasts := toasts w ++
           [ {| toast_title := js "Delete failed";
                toast_description := js "Failed to delete message.";
                toast_variant := Destructive |} ] |}
  | Done db1 =>
      {| db := db1;
         ui := setMessages
                 (fun prev =>
                    filter (fun m => negb (string_eqb (id m) (id message)))
                           prev)
                 (ui w);
         toasts := toasts w ++
           [ {| toast_title := js "Message deleted";
                toast_description :=
                  js "Your message has been permanently deleted.";
                toast_variant := Default |} ] |}
  end.

End HistoryHandlers.

(* ================================================================== *)
(** * Statements used by the properties below *)
(* ================================================================== *)

(** A template function is a fixed pattern over a set of placeholders when
    one pattern, chosen before the input is known, yields its output on
    every input. *)
Definition fixed_pattern {Data F : Type} (value : Data -> F -> jsstring)
  (f : Data -> jsstring) : Prop :=
  exists p : list (segment F), forall data, f data = interpolate (value data) p.

(** The placeholders the glossary names. *)
Inductive Placeholder := PRecipientName | PCompany | PPurpose.

Definition coach_value (data : NetworkingCoach.MessageData) (h : Placeholder)
  : jsstring :=
  match h with
  | PRecipientName => NetworkingCoach.recipientName data
  | PCompany => NetworkingCoach.company data
  | PPurpose => NetworkingCoach.purpose data
  end.

Definition student_value (data : NetworkingCoachStudent.MessageData)
  (h : Placeholder) : jsstring :=
  match h with
  | PRecipientName => NetworkingCoachStudent.recipientName data
  | PCompany => NetworkingCoachStudent.company data
  | PPurpose => NetworkingCoachStudent.purpose data
  end.

(** The placeholders of the variant with the student's own details. *)
Inductive StudentPlaceholder :=
| SRecipientName | SCompany | SPurpose | SStudentName | SUniversity | SMajor.

Definition student_value_all (data : NetworkingCoachStudent.MessageData)
  (h : StudentPlaceholder) : jsstring :=
  match h with
  | SRecipientName => NetworkingCoachStudent.recipientName data
  | SCompany => NetworkingCoachStudent.company data
  | SPurpose => NetworkingCoachStudent.purpose data
  | SStudentName => NetworkingCoachStudent.studentName data
  | SUniversity => NetworkingCoachStudent.university data
  | SMajor => NetworkingCoachStudent.major data
  end.

(** ** The user interface *)

(** C2 as it is worded: the message shown after generation is the text the
    serverless function returns for the form input. *)
Definition generated_by_function
  (invoke : NetworkingCoach.MessageData -> jsstring)
  (st : NetworkingCoach.State) : Prop :=
  NetworkingCoach.generatedMessage (fst (NetworkingCoach.handleGenerate st))
  = invoke (NetworkingCoach.messageData st).

(** A state variable takes the value [d] in some state the component
    reaches. *)
Definition takes {D : Type} (cell : NetworkingCoach.State -> D) (d : D)
  : Prop :=
  exists evs, cell (NetworkingCoach.run evs NetworkingCoach.initial) = d.

(** Some event, handled in a state the component reaches where the
    variable is [d], leaves the variable at [d']. *)
Definition moves {D : Type} (cell : NetworkingCoach.State -> D) (d d' : D)
  : Prop :=
  exists evs ev,
    let st := NetworkingCoach.run evs NetworkingCoach.initial in
    cell st = d /\ cell (NetworkingCoach.step st ev) = d'.

(** C6's notion of a state machine: a state variable whose value is driven
    through a set of discrete states by a transition relation among the
    event handlers.  The variable takes finitely many values; the handlers
    change it; and they do so along a relation, not freely: there are two
    values it takes such that no handler moves it from the one to the
    other.  A flag that any click sets and any timer clears, a selection
    and a text field are not driven in this sense. *)
Definition driven_through_discrete_states {D : Type}
  (cell : NetworkingCoach.State -> D) : Prop :=
  (exists states : list D, forall d, takes cell d -> In d states)
  /\ (exists d d', d <> d' /\ moves cell d d')
  /\ (exists d d', d <> d' /\ takes cell d /\ takes cell d'
                   /\ ~ moves cell d d').

(** C6 as it is worded, for the four state variables of the component:
    none of them is a state machine. *)
Definition no_state_machine : Prop :=
  ~ driven_through_discrete_states NetworkingCoach.messageData
  /\ ~ driven_through_discrete_states NetworkingCoach.generatedMessage
  /\ ~ driven_through_discrete_states NetworkingCoach.copied
  /\ ~ driven_through_discrete_states NetworkingCoach.activeStep.

(** C6 as it is worded, on scheduling: no handler ever sets a timer. *)
Definition no_scheduling : Prop :=
  forall evs callback ms,
    ~ In (NetworkingCoach.SetTimeout callback ms)
         (CoachRuns.effects evs NetworkingCoach.initial).

(** The transition relation of the step indicator: from 1 to 2, from 2 to
    3, or staying. *)
Definition activeStep_transition (d d' : N) : Prop :=
  (d = 1 /\ (d' = 1 \/ d' = 2))
  \/ (d = 2 /\ (d' = 2 \/ d' = 3))
  \/ (d = 3 /\ d' = 3).

(** Everything [handleCopy] does besides setting [copied]. *)
Definition copy_effects (displayed : jsstring)
  : list NetworkingCoach.Effect :=
  [ NetworkingCoach.ClipboardWriteText displayed;
    NetworkingCoach.SetTimeout NetworkingCoach.ResetCopied 2000;
    NetworkingCoach.Toast
      (js "Message copied!")
      (js "Your message has been copied to clipboard.") ].

(** The transitions of the step indicator. *)
Definition activeStep_after (st : NetworkingCoach.State)
  (ev : NetworkingCoach.Event) : N :=
  match ev with
  | NetworkingCoach.ChangeRecipientName value =>
      if truthy_string value && (NetworkingCoach.activeStep st <? 2)
      then 2 else NetworkingCoach.activeStep st
  | NetworkingCoach.ClickGenerate =>
      if NetworkingCoach.generate_disabled st
      then NetworkingCoach.activeStep st else 3
  | _ => NetworkingCoach.activeStep st
  end.

(** A message was generated from a form whose recipient name and company
    were not empty. *)
Definition generated_from_valid_form (message : jsstring) : Prop :=
  exists data : NetworkingCoach.MessageData,
    NetworkingCoach.recipientName data <> []
    /\ NetworkingCoach.company data <> []
    /\ message
       = NetworkingCoach.template
           (NetworkingCoach.messageTemplates (NetworkingCoach.messageType data))
           data.

(** ** The database *)

Module NM := Schema.NetworkingMessages.
Module MA := Schema.MessageAnalytics.

(** The policies of a table let a session act on a row, as an existing row
    (USING) or as a new one (WITH CHECK), only if somebody is signed in and
    is the user named by the row. *)
Definition owner_only {Row : Type} (policies : list (Schema.Policy Row))
  (user_id : Row -> option Schema.UUID) : Prop :=
  forall (c : Schema.Command) (auth_uid : option Schema.UUID) (r : Row),
    Database.using_permits policies c auth_uid r = true
    \/ Database.check_permits policies c auth_uid r = true ->
    exists u, auth_uid = Some u /\ user_id r = Some u.

(** The message type of a stored row is a member of the client's union. *)
Definition valid_message_type (r : Schema.NetworkingMessages.row) : Prop :=
  exists t : NetworkingCoach.MessageType,
    Schema.NetworkingMessages.message_type r
    = Some (NetworkingCoach.MessageType_string t).

(** ** The message history *)







(** ** The edge function *)

(** Reading a path of properties; reading a property of undefined or null
    finds nothing. *)
Definition lookup (v : EdgeFunction.Value) (path : list EdgeFunction.Key)
  : EdgeFunction.Value :=
  fold_left EdgeFunction.prop path v.

Definition choices_0_message : list EdgeFunction.Key :=
  [ EdgeFunction.Named (js "choices"); EdgeFunction.Index 0;
    EdgeFunction.Named (js "message") ].

Definition choices_0_message_content : list EdgeFunction.Key :=
  choices_0_message ++ [ EdgeFunction.Named (js "content") ].

(** The handler got [r] from upstream: the request was not a preflight, the
    handler read its body, found the key configured, and the fetch returned
    [r]. *)
Definition upstream_response (tm : EdgeFunction.TypeErrorMessages)
  (world : EdgeFunction.World) (req : EdgeFunction.Request)
  (r : EdgeFunction.UpstreamResponse) : Prop :=
  EdgeFunction.method req <> js "OPTIONS"
  /\ exists body params key,
       EdgeFunction.req_json req = EdgeFunction.Normal body
       /\ EdgeFunction.destructure tm body = EdgeFunction.Normal params
       /\ EdgeFunction.openAIApiKey world = Some key
       /\ truthy_string key = true
       /\ EdgeFunction.fetch_completion world key params
          = EdgeFunction.Normal r.

(** The four failures C3 lists. *)
Definition listed_failure (tm : EdgeFunction.TypeErrorMessages)
  (world : EdgeFunction.World) (req : EdgeFunction.Request) : Prop :=
  EdgeFunction.openAIApiKey world = None
  \/ EdgeFunction.openAIApiKey world = Some []
  \/ (exists r, upstream_response tm world req r
                /\ EdgeFunction.ok r = false)
  \/ (exists r data,
         upstream_response tm world req r
         /\ EdgeFunction.json r = EdgeFunction.Normal data
         /\ lookup data choices_0_message = EdgeFunction.VUndefined)
  \/ (exists r data s,
         upstream_response tm world req r
         /\ EdgeFunction.json r = EdgeFunction.Normal data
         /\ lookup data choices_0_message_content = EdgeFunction.VString s
         /\ trim s = []).

(** HTTP 500 with the body [{ success: false, error: message }]. *)
Definition error_response (message : jsstring) : EdgeFunction.Response :=
  {| EdgeFunction.resp_status := 500;
     EdgeFunction.resp_headers :=
       EdgeFunction.corsHeaders
       ++ [ (js "Content-Type", js "application/json") ];
     EdgeFunction.resp_body :=
       Some (EdgeFunction.VObject
               [ (js "success", EdgeFunction.VBoolean false);
                 (js "error", EdgeFunction.VString message) ]) |}.

(** HTTP 200 with the body [{ success: true, message: text }]. *)
Definition success_response (text : jsstring) : EdgeFunction.Response :=
  {| EdgeFunction.resp_status := 200;
     EdgeFunction.resp_headers :=
       EdgeFunction.corsHeaders
       ++ [ (js "Content-Type", js "application/json") ];
     EdgeFunction.resp_body :=
       Some (EdgeFunction.VObject
               [ (js "success", EdgeFunction.VBoolean true);
                 (js "message", EdgeFunction.VString text) ]) |}.

(** [t] is [s] without its leading and trailing white space. *)
Definition trimmed_of (s t : jsstring) : Prop :=
  (exists pre post,
      s = pre ++ t ++ post
      /\ forallb is_white_space pre = true
      /\ forallb is_white_space post = true)
  /\ (forall c rest, t = c :: rest -> is_white_space c = false)
  /\ (forall init c, t = init ++ [c] -> is_white_space c = false).

(** ** Sample inputs *)

(** Two inputs of the variant with student details that agree on the
    recipient's name, the company and the purpose. *)
Definition ann_from (student : jsstring)
  : NetworkingCoachStudent.MessageData :=
  {| NetworkingCoachStudent.recipientName := js "Ann";
     NetworkingCoachStudent.recipientTitle := [];
     NetworkingCoachStudent.company := js "ACME";
     NetworkingCoachStudent.studentName := student;
     NetworkingCoachStudent.university := js "MIT";
     NetworkingCoachStudent.major := js "CS";
     NetworkingCoachStudent.purpose := js "Hello.";
     NetworkingCoachStudent.messageType := NetworkingCoach.linkedin |}.

(** A filled form, up to the title of the recipient. *)
Definition form_with_title (title : jsstring) : NetworkingCoach.State :=
  NetworkingCoach.setMessageData
    (fun _ => {| NetworkingCoach.recipientName := js "Sarah Johnson";
                 NetworkingCoach.recipientTitle := title;
                 NetworkingCoach.company := js "Microsoft";
                 NetworkingCoach.purpose := js "I admire your work.";
                 NetworkingCoach.messageType :=
                   NetworkingCoach.informational |})
    NetworkingCoach.initial.

(** Typing only the two required fields. *)
Definition fill_required_fields : list NetworkingCoach.Event :=
  [ NetworkingCoach.ChangeRecipientName (js "Sarah Johnson");
    NetworkingCoach.ChangeCompany (js "Microsoft") ].

(** A message row owned by the user [owner]. *)
Definition row_of (owner : jsstring) (favorite : bool)
  : Schema.NetworkingMessages.row :=
  {| Schema.NetworkingMessages.id := Some (js "m1");
     Schema.NetworkingMessages.user_id := Some owner;
     Schema.NetworkingMessages.message_type := Some (js "linkedin");
     Schema.NetworkingMessages.recipient_name := Some (js "Sarah Johnson");
     Schema.NetworkingMessages.recipient_title := None;
     Schema.NetworkingMessages.company := Some (js "Microsoft");
     Schema.NetworkingMessages.purpose := None;
     Schema.NetworkingMessages.generated_message := Some (js "Hi Sarah");
     Schema.NetworkingMessages.is_favorite := Some favorite;
     Schema.NetworkingMessages.created_at := Some 1;
     Schema.NetworkingMessages.updated_at := Some 1 |}.

(** A history of one message, stored for the user alice, who is signed
    in. *)
Definition sarah : MessageHistory.NetworkingMessage :=
  {| MessageHistory.id := js "m1";
     MessageHistory.message_type := js "linkedin";
     MessageHistory.recipient_name := js "Sarah Johnson";
     MessageHistory.recipient_title := None;
     MessageHistory.company := js "Microsoft";
     MessageHistory.purpose := None;
     MessageHistory.generated_message := js "Hi Sarah";
     MessageHistory.is_favorite := false;
     MessageHistory.created_at := js "2025-09-10T11:30:17Z" |}.

Definition alice_world : MessageHistory.World :=
  {| MessageHistory.db :=
       {| Database.messages_table := [ row_of (js "alice") false ];
          Database.analytics_table := [] |};
     MessageHistory.ui :=
       {| MessageHistory.messages := [ sarah ];
          MessageHistory.loading := false;
          MessageHistory.copiedId := None |};
     MessageHistory.toasts := [] |}.

(** The list was loaded before the message was made a favourite
    elsewhere: the table holds the flag, the copy in the list does not. *)
Definition stale_world : MessageHistory.World :=
  {| MessageHistory.db :=
       {| Database.messages_table := [ row_of (js "alice") true ];
          Database.analytics_table := [] |};
     MessageHistory.ui :=
       {| MessageHistory.messages := [ sarah ];
          MessageHistory.loading := false;
          MessageHistory.copiedId := None |};
     MessageHistory.toasts := [] |}.

Definition alice_session : MessageHistory.Session :=
  {| MessageHistory.auth_uid := Some (js "alice");
     MessageHistory.update_delivered := true;
     MessageHistory.insert_delivered := true;
     MessageHistory.now := 2;
     MessageHistory.fresh_uuid := js "a1" |}.

(** An engine, a configured function and a request. *)
Definition engine : EdgeFunction.TypeErrorMessages :=
  {| EdgeFunction.cannot_destructure := fun _ => js "Cannot destructure";
     EdgeFunction.cannot_read_properties :=
       fun _ _ => js "Cannot read properties";
     EdgeFunction.is_not_a_function := js "is not a function" |}.

Definition post_request : EdgeFunction.Request :=
  {| EdgeFunction.method := js "POST";
     EdgeFunction.req_json :=
       EdgeFunction.Normal
         (EdgeFunction.VObject
            [ (js "messageType", EdgeFunction.VString (js "linkedin"));
              (js "recipientName", EdgeFunction.VString (js "Sarah"));
              (js "company", EdgeFunction.VString (js "Microsoft")) ]) |}.

(** The body of a chat completion whose first choice has [content]. *)
Definition completion_of (content : EdgeFunction.Value) : EdgeFunction.Value :=
  EdgeFunction.VObject
    [ (js "choices",
       EdgeFunction.VArray
         [ EdgeFunction.VObject
             [ (js "message",
                EdgeFunction.VObject
                  [ (js "role", EdgeFunction.VString (js "assistant"));
                    (js "content", content) ]) ] ]) ].

Definition upstream_ok (data : EdgeFunction.Value)
  : EdgeFunction.UpstreamResponse :=
  {| EdgeFunction.ok := true;
     EdgeFunction.status := 200;
     EdgeFunction.statusText := js "OK";
     EdgeFunction.text := EdgeFunction.Throw (js "body already read");
     EdgeFunction.json := EdgeFunction.Normal data |}.

Definition world_answering (r : EdgeFunction.UpstreamResponse)
  : EdgeFunction.World :=
  {| EdgeFunction.openAIApiKey := Some (js "sk-test");
     EdgeFunction.fetch_completion := fun _ _ => EdgeFunction.Normal r |}.

Definition world_without_key : EdgeFunction.World :=
  {| EdgeFunction.openAIApiKey := None;
     EdgeFunction.fetch_completion :=
       fun _ _ => EdgeFunction.Throw (js "not reached") |}.

(** A completion padded with white space, and a world answering with it. *)
Definition padded_content : jsstring := js "  Hi Sarah, let us connect.\n".

Definition padded_world : EdgeFunction.World :=
  world_answering
    (upstream_ok (completion_of (EdgeFunction.VString padded_content))).

(** ** Further statements and sample inputs *)

(** The statement is run by a client of the API whose [auth.uid()] is
    [auth]. *)
Definition by_client (auth : option Schema.UUID) (s : Database.Statement)
  : Prop :=
  match s with
  | Database.Insert role _ => role = Database.Client auth
  | Database.Update role _ _ _ => role = Database.Client auth
  | Database.Delete role _ => role = Database.Client auth
  end.

(** The row belongs to the user [auth.uid()] names. *)
Definition owned_by (auth : option Schema.UUID) (r : NM.row) : bool :=
  Schema.is_true (Schema.sql_eq auth (NM.user_id r)).

(** Every row satisfies the NOT NULL and CHECK constraints of the table
    and no two rows share an id. *)
Definition well_formed (rows : list NM.row) : Prop :=
  Forall (fun r => Database.constraints Database.networking_messages r = true)
         rows
  /\ Database.unique_keys Database.networking_messages rows = true.

(** A second message row, owned by the user [owner]. *)
Definition second_row_of (owner : jsstring) : Schema.NetworkingMessages.row :=
  {| Schema.NetworkingMessages.id := Some (js "m2");
     Schema.NetworkingMessages.user_id := Some owner;
     Schema.NetworkingMessages.message_type := Some (js "mentor-request");
     Schema.NetworkingMessages.recipient_name := Some (js "Lee Wong");
     Schema.NetworkingMessages.recipient_title := Some (js "CTO");
     Schema.NetworkingMessages.company := Some (js "Initech");
     Schema.NetworkingMessages.purpose := None;
     Schema.NetworkingMessages.generated_message := Some (js "Dear Lee");
     Schema.NetworkingMessages.is_favorite := Some false;
     Schema.NetworkingMessages.created_at := Some 3;
     Schema.NetworkingMessages.updated_at := Some 3 |}.

(** A new account. *)
Definition new_user : Accounts.auth_user :=
  {| Accounts.au_id := js "alice";
     Accounts.au_email := Some (js "alice@example.edu");
     Accounts.raw_user_meta_data :=
       fun key => if string_eqb key (js "full_name")
                  then Some (js "Alice Doe") else None |}.

(** Bob is signed in; the one message of the table is Alice's. *)
Definition bob_session : MessageHistory.Session :=
  {| MessageHistory.auth_uid := Some (js "bob");
     MessageHistory.update_delivered := true;
     MessageHistory.insert_delivered := true;
     MessageHistory.now := 2;
     MessageHistory.fresh_uuid := js "a1" |}.

Definition surroundings (s : MessageHistory.Session)
  : HistoryHandlers.Surroundings :=
  {| HistoryHandlers.session := s;
     HistoryHandlers.delete_delivered := true;
     HistoryHandlers.clipboard_granted := true |}.


Definition message_without_content : list (jsstring * EdgeFunction.Value) :=
  [ (js "role", EdgeFunction.VString (js "assistant"));
    (js "refusal", EdgeFunction.VString (js "no")) ].

Definition completion_without_content : EdgeFunction.Value :=
  EdgeFunction.VObject
    [ (js "choices",
       EdgeFunction.VArray
         [ EdgeFunction.VObject
             [ (js "message",
                EdgeFunction.VObject message_without_content) ] ]) ].

(** What [toggleFavorite message] does to one message of the list. *)
Definition toggle_in_list (message m : MessageHistory.NetworkingMessage)
  : MessageHistory.NetworkingMessage :=
  if string_eqb (MessageHistory.id m) (MessageHistory.id message)
  then MessageHistory.with_is_favorite
         (negb (MessageHistory.is_favorite m)) m
  else m.

(** The session owns no row of the table with the id of [message]. *)
Definition owns_no_row (s : MessageHistory.Session)
  (message : MessageHistory.NetworkingMessage) (rows : list NM.row) : Prop :=
  forall r, In r rows ->
            owned_by (MessageHistory.auth_uid s) r = false
            \/ NM.id r <> Some (MessageHistory.id message).

(** The analytics row [track] asks the database to insert. *)
Definition tracked_row (s : MessageHistory.Session)
  (message : MessageHistory.NetworkingMessage) (action : jsstring) : MA.row :=
  {| MA.id := Some (MessageHistory.fresh_uuid s);
     MA.user_id := MessageHistory.auth_uid s;
     MA.message_id := Some (MessageHistory.id message);
     MA.action_type := Some action;
     MA.created_at := Some (MessageHistory.now s) |}.

(* ================================================================== *)
(** * Properties of the templates *)
(* ================================================================== *)

Section StringFacts.

(** The decoding of a literal with an escape, an apostrophe and a
    bullet. *)
Example js_decodes :
  js "I'm\n• ok" = [73; 39; 109; 10; 8226; 32; 111; 107].
Proof. vm_compute. reflexivity. Qed.

Example trim_strips :
  trim (js " \n Hi there \n") = js "Hi there".
Proof. vm_compute. reflexivity. Qed.

Lemma string_eqb_eq (a b : jsstring) : string_eqb a b = true <-> a = b.
Proof.
  unfold string_eqb. destruct (list_eq_dec N.eq_dec a b); split;
    congruence.
Qed.

Lemma string_eqb_refl (a : jsstring) : string_eqb a a = true.
Proof. apply string_eqb_eq. reflexivity. Qed.

Lemma string_eqb_neq (a b : jsstring) : string_eqb a b = false <-> a <> b.
Proof.
  unfold string_eqb. destruct (list_eq_dec N.eq_dec a b); split;
    congruence.
Qed.

Lemma truthy_string_nonempty (s : jsstring) :
  truthy_string s = true <-> s <> [].
Proof. destruct s; simpl; split; congruence. Qed.

End StringFacts.

Tactic Notation "by_pattern" uconstr(p) :=
  refine (ex_intro _ p _); intros data;
  unfold interpolate; cbn [map concat fill];
  rewrite app_nil_r; reflexivity.

Section Templates.

Import NetworkingCoach.

(** Two inputs on which the placeholders of a pattern take the same
    values are interpolated alike. *)
Lemma interpolate_ext {F} (v1 v2 : F -> jsstring) (p : list (segment F)) :
  (forall h, v1 h = v2 h) -> interpolate v1 p = interpolate v2 p.
Proof.
  intros Hv. unfold interpolate. f_equal.
  apply map_ext. intros [s | h]; simpl; auto.
Qed.

Lemma coach_templates_fixed (t : MessageType) :
  fixed_pattern coach_value (template (messageTemplates t)).
Proof.
  destruct t; cbn [messageTemplates template].
  - by_pattern [ Lit _; Hole PRecipientName; Lit _; Hole PCompany; Lit _;
                 Hole PPurpose; Lit _ ].
  - by_pattern [ Lit _; Hole PRecipientName; Lit _; Hole PCompany; Lit _;
                 Hole PPurpose; Lit _ ].
  - by_pattern [ Lit _; Hole PRecipientName; Lit _; Hole PCompany; Lit _;
                 Hole PPurpose; Lit _; Hole PCompany; Lit _ ].
  - by_pattern [ Lit _; Hole PRecipientName; Lit _; Hole PCompany; Lit _;
                 Hole PPurpose; Lit _ ].
Qed.

Lemma student_templates_fixed (t : MessageType) :
  fixed_pattern student_value_all
    (NetworkingCoachStudent.template
       (NetworkingCoachStudent.messageTemplates t)).
Proof.
  destruct t;
    cbn [NetworkingCoachStudent.messageTemplates
         NetworkingCoachStudent.template].
  - by_pattern
      [ Lit _; Hole SRecipientName; Lit _; Hole SStudentName; Lit _;
        Hole SMajor; Lit _; Hole SUniversity; Lit _; Hole SCompany; Lit _;
        Hole SPurpose; Lit _; Hole SStudentName ].
  - by_pattern
      [ Lit _; Hole SMajor; Lit _; Hole SUniversity; Lit _;
        Hole SRecipientName; Lit _; Hole SStudentName; Lit _; Hole SMajor;
        Lit _; Hole SUniversity; Lit _; Hole SCompany; Lit _; Hole SPurpose;
        Lit _; Hole SStudentName; Lit _; Hole SUniversity; Lit _ ].
  - by_pattern
      [ Lit _; Hole SStudentName; Lit _; Hole SRecipientName; Lit _;
        Hole SCompany; Lit _; Hole SPurpose; Lit _; Hole SCompany; Lit _;
        Hole SStudentName; Lit _; Hole SUniversity; Lit _ ].
  - by_pattern
      [ Lit _; Hole SMajor; Lit _; Hole SUniversity; Lit _;
        Hole SRecipientName; Lit _; Hole SStudentName; Lit _; Hole SMajor;
        Lit _; Hole SUniversity; Lit _; Hole SCompany; Lit _; Hole SPurpose;
        Lit _; Hole SStudentName; Lit _; Hole SUniversity; Lit _ ].
Qed.

(** C1, as stated, fails on the variant of the component that collects the
    student's details: its LinkedIn template is not a pattern over the
    recipient's name, the company and the purpose alone, because the
    messages for the students Bob and Eve differ while those three fields
    are the same. *)
Lemma student_template_reads_student_name :
  ~ (forall t : MessageType,
       fixed_pattern student_value
         (NetworkingCoachStudent.template
            (NetworkingCoachStudent.messageTemplates t))).
Proof.
  intros H. destruct (H linkedin) as [p Hp].
  pose proof (Hp (ann_from (js "Bob"))) as H1.
  pose proof (Hp (ann_from (js "Eve"))) as H2.
  assert (E : interpolate (student_value (ann_from (js "Bob"))) p
              = interpolate (student_value (ann_from (js "Eve"))) p).
  { apply interpolate_ext. intros []; reflexivity. }
  rewrite <- H1, <- H2 in E.
  vm_compute in E. discriminate E.
Qed.

(** C1, amended: for every input and each of the four message types, the
    template function of NetworkingCoach.tsx is a fixed pattern of literal
    segments interleaved with the recipient's name, the company and the
    purpose, and depends on nothing else; the template function of the
    variant that also collects the student's details is a fixed pattern
    over those three fields and the student's name, university and major. *)
Theorem templates_are_fixed_patterns :
  forall t : MessageType,
    fixed_pattern coach_value (template (messageTemplates t))
    /\ fixed_pattern student_value_all
         (NetworkingCoachStudent.template
            (NetworkingCoachStudent.messageTemplates t)).
Proof.
  intros t. split.
  - apply coach_templates_fixed.
  - apply student_templates_fixed.
Qed.

(** The message [handleGenerate] leaves in the state. *)
Lemma handleGenerate_message (st : State) :
  generatedMessage (fst (handleGenerate st))
  = template (messageTemplates (messageType (messageData st)))
             (messageData st).
Proof. reflexivity. Qed.

(** C8: two form inputs that differ only in recipientTitle give the same
    generated message, whatever the message type. *)
Theorem handleGenerate_ignores_recipientTitle (st1 st2 : State) :
  recipientName (messageData st1) = recipientName (messageData st2) ->
  company (messageData st1) = company (messageData st2) ->
  purpose (messageData st1) = purpose (messageData st2) ->
  messageType (messageData st1) = messageType (messageData st2) ->
  generatedMessage (fst (handleGenerate st1))
  = generatedMessage (fst (handleGenerate st2)).
Proof.
  intros Hn Hc Hp Ht. rewrite !handleGenerate_message, <- Ht.
  destruct (coach_templates_fixed (messageType (messageData st1)))
    as [p Hpat].
  rewrite !Hpat. apply interpolate_ext.
  intros []; simpl; assumption.
Qed.

(** The variant with student details does not read the title either. *)
Lemma student_handleGenerate_ignores_recipientTitle
  (st1 st2 : NetworkingCoachStudent.State) :
  (forall h, student_value_all (NetworkingCoachStudent.messageData st1) h
             = student_value_all (NetworkingCoachStudent.messageData st2) h) ->
  NetworkingCoachStudent.messageType (NetworkingCoachStudent.messageData st1)
  = NetworkingCoachStudent.messageType (NetworkingCoachStudent.messageData st2) ->
  NetworkingCoachStudent.generatedMessage
    (fst (NetworkingCoachStudent.handleGenerate st1))
  = NetworkingCoachStudent.generatedMessage
      (fst (NetworkingCoachStudent.handleGenerate st2)).
Proof.
  intros Hv Ht. unfold NetworkingCoachStudent.handleGenerate.
  cbn [fst NetworkingCoachStudent.generatedMessage
       NetworkingCoachStudent.setGeneratedMessage].
  rewrite <- Ht.
  destruct (student_templates_fixed
              (NetworkingCoachStudent.messageType
                 (NetworkingCoachStudent.messageData st1))) as [p Hpat].
  rewrite !Hpat. apply interpolate_ext, Hv.
Qed.

Lemma handleGenerate_ignores_recipientTitle_witness :
  generatedMessage
    (fst (handleGenerate (form_with_title (js "Software Engineer"))))
  = generatedMessage (fst (handleGenerate (form_with_title (js "CEO")))).
Proof.
  apply handleGenerate_ignores_recipientTitle; vm_compute; reflexivity.
Defined.

End Templates.

(* ================================================================== *)
(** * Properties of the NetworkingCoach component *)
(* ================================================================== *)

Section Coach.

Import NetworkingCoach.

Lemma run_snoc (evs : list Event) (ev : Event) (st : State) :
  run (evs ++ [ev]) st = step (run evs st) ev.
Proof. unfold run. rewrite fold_left_app. reflexivity. Qed.

(** A property that holds initially and is kept by every event holds in
    every state the component reaches. *)
Lemma run_invariant (P : State -> Prop) :
  P initial ->
  (forall st ev, P st -> P (step st ev)) ->
  forall evs, P (run evs initial).
Proof.
  intros H0 Hstep evs. induction evs as [| ev evs IH] using rev_ind.
  - exact H0.
  - rewrite run_snoc. apply Hstep, IH.
Qed.

(** C2, as stated, fails: with a recipient name and a company typed in,
    where the Generate Message button is enabled, the generated message
    is the LinkedIn template around those fields, not the text of a
    function that answers with the empty string. *)
Lemma handleGenerate_not_by_function :
  ~ (forall invoke st, generated_by_function invoke st).
Proof.
  intros H. specialize (H (fun _ => []) (run fill_required_fields initial)).
  unfold generated_by_function in H. vm_compute in H. discriminate H.
Qed.

(** C2, amended: handleGenerate calls nothing; it performs no effect at
    all, and the message it shows is computed in the browser by
    interpolating the form fields into the fixed pattern of the selected
    message type.  This holds for both versions of the component. *)
Theorem handleGenerate_is_local :
  forall t : MessageType,
    (exists p, forall st,
        messageType (messageData st) = t ->
        handleGenerate st
        = (setActiveStep 3
             (setGeneratedMessage
                (interpolate (coach_value (messageData st)) p) st), []))
    /\
    (exists p, forall st,
        NetworkingCoachStudent.messageType
          (NetworkingCoachStudent.messageData st) = t ->
        NetworkingCoachStudent.handleGenerate st
        = (NetworkingCoachStudent.setGeneratedMessage
             (interpolate
                (student_value_all (NetworkingCoachStudent.messageData st))
                p) st, [])).
Proof.
  intros t. split.
  - destruct (coach_templates_fixed t) as [p Hp]. exists p.
    intros st Ht. unfold handleGenerate. rewrite Ht, Hp. reflexivity.
  - destruct (student_templates_fixed t) as [p Hp]. exists p.
    intros st Ht. unfold NetworkingCoachStudent.handleGenerate.
    rewrite Ht, Hp. reflexivity.
Qed.

(** *** The step indicator *)

Lemma activeStep_range_step (st : State) (ev : Event) :
  1 <= activeStep st <= 3 -> 1 <= activeStep (step st ev) <= 3.
Proof.
  intros H. unfold step, dispatch.
  destruct ev as [key | value | value | value | value | | | []];
    cbn [fst]; try exact H.
  - cbn [setActiveStep activeStep]. lia.
  - destruct (truthy_string value && (activeStep st <? 2));
      cbn [fst setActiveStep setMessageData activeStep]; lia.
  - destruct (generate_disabled st); cbn; lia.
  - destruct (copy_rendered st); cbn; lia.
Qed.

Lemma activeStep_range (evs : list Event) :
  1 <= activeStep (run evs initial) <= 3.
Proof.
  apply (run_invariant (fun st => 1 <= activeStep st <= 3)).
  - cbn. lia.
  - apply activeStep_range_step.
Qed.

Lemma activeStep_step (st : State) (ev : Event) :
  1 <= activeStep st ->
  activeStep (step st ev) = activeStep_after st ev.
Proof.
  intros H. unfold step, dispatch, activeStep_after.
  destruct ev as [key | value | value | value | value | | | []];
    cbn [fst]; try reflexivity.
  - cbn [setActiveStep activeStep]. lia.
  - destruct (truthy_string value && (activeStep st <? 2)); reflexivity.
  - destruct (generate_disabled st); reflexivity.
  - destruct (copy_rendered st); reflexivity.
Qed.

(** [activeStep] starts at 1 and is 1, 2 or 3 in every state the
    component reaches; entering a non-empty recipient name while it is
    below 2 moves it to 2, an enabled Generate Message button moves it to
    3, every other event leaves it as it is, and it never decreases. *)
Lemma activeStep_steps :
  activeStep initial = 1
  /\ forall (evs : list Event) (ev : Event),
       let st := run evs initial in
       (activeStep st = 1 \/ activeStep st = 2 \/ activeStep st = 3)
       /\ activeStep (step st ev) = activeStep_after st ev
       /\ activeStep st <= activeStep (step st ev).
Proof.
  split; [reflexivity |]. intros evs ev st.
  pose proof (activeStep_range evs) as Hr. fold st in Hr.
  assert (Hs : activeStep (step st ev) = activeStep_after st ev)
    by (apply activeStep_step; lia).
  repeat split.
  - lia.
  - exact Hs.
  - rewrite Hs. unfold activeStep_after.
    destruct ev as [key | value | value | value | value | | | []];
      try lia.
    + destruct (truthy_string value && (activeStep st <? 2)) eqn:E; [| lia].
      apply andb_prop in E. destruct E as [_ E].
      apply N.ltb_lt in E. lia.
    + destruct (generate_disabled st); lia.
Qed.

(** *** The Generate Message button *)

Lemma enabled_fields_nonempty (st : State) :
  generate_disabled st = false ->
  recipientName (messageData st) <> [] /\ company (messageData st) <> [].
Proof.
  unfold generate_disabled, isFormValid, and_string.
  destruct (recipientName (messageData st)) as [| a n];
    destruct (company (messageData st)) as [| b c];
    cbn; intros H; split; congruence.
Qed.

Lemma generated_step (st : State) (ev : Event) :
  generatedMessage (step st ev) = generatedMessage st
  \/ generated_from_valid_form (generatedMessage (step st ev)).
Proof.
  unfold step, dispatch.
  destruct ev as [key | value | value | value | value | | | []];
    cbn [fst]; try (left; reflexivity).
  - destruct (truthy_string value && (activeStep st <? 2));
      left; reflexivity.
  - destruct (generate_disabled st) eqn:E; [left; reflexivity |].
    right. exists (messageData st).
    destruct (enabled_fields_nonempty st E) as [Hn Hc].
    repeat split; assumption.
  - destruct (copy_rendered st); left; reflexivity.
Qed.

Lemma generated_invariant (evs : list Event) :
  generatedMessage (run evs initial) = []
  \/ generated_from_valid_form (generatedMessage (run evs initial)).
Proof.
  apply (run_invariant
           (fun st => generatedMessage st = []
                      \/ generated_from_valid_form (generatedMessage st))).
  - left. reflexivity.
  - intros st ev IH.
    destruct (generated_step st ev) as [E | G].
    + rewrite E. exact IH.
    + right. exact G.
Qed.

(** C9: whenever the Generate Message button is enabled, the recipient
    name and the company are non-empty; hence a message the component
    shows was generated from a form with a non-empty recipient name and a
    non-empty company.  The title and the purpose may be empty while the
    button is enabled. *)
Theorem generate_requires_name_and_company :
  (forall evs : list Event,
      let st := run evs initial in
      (generate_disabled st = false ->
       recipientName (messageData st) <> []
       /\ company (messageData st) <> [])
      /\ (generatedMessage st <> [] ->
          generated_from_valid_form (generatedMessage st)))
  /\ (exists evs : list Event,
         let st := run evs initial in
         generate_disabled st = false
         /\ recipientTitle (messageData st) = []
         /\ purpose (messageData st) = []).
Proof.
  split.
  - intros evs st. split.
    + apply enabled_fields_nonempty.
    + intros Hne. destruct (generated_invariant evs) as [E | G].
      * contradiction.
      * exact G.
  - exists fill_required_fields. vm_compute. repeat split.
Qed.

Lemma generate_requires_name_and_company_witness :
  let st := run (fill_required_fields ++ [ClickGenerate]) initial in
  (recipientName (messageData st) <> []
   /\ company (messageData st) <> [])
  /\ generated_from_valid_form (generatedMessage st).
Proof.
  intros st.
  destruct generate_requires_name_and_company as [H _].
  destruct (H (fill_required_fields ++ [ClickGenerate])) as [H1 H2].
  split.
  - apply H1. vm_compute. reflexivity.
  - apply H2. vm_compute. discriminate.
Defined.

End Coach.

(* ================================================================== *)
(** * Properties of the schema *)
(* ================================================================== *)

Section SchemaProperties.

Import Schema Database.

Lemma is_true_sql_eq (a b : option jsstring) :
  is_true (sql_eq a b) = true -> exists u, a = Some u /\ b = Some u.
Proof.
  destruct a as [x |], b as [y |]; cbn; try discriminate.
  destruct (string_eqb x y) eqn:E; [| discriminate].
  apply string_eqb_eq in E. subst y. intros _. exists x. split; reflexivity.
Qed.

Ltac policy_cases H :=
  unfold using_permits, check_permits, using_of, with_check_of in H;
  cbn [existsb policy_for policy_using policy_with_check
       Command_eqb andb orb] in H;
  rewrite ?orb_false_r in H;
  first [ discriminate H | apply is_true_sql_eq in H; exact H ].

Lemma profiles_owner_only : owner_only Profiles.policies Profiles.user_id.
Proof.
  intros c auth_uid r [H | H]; unfold Profiles.policies in H;
    destruct c; policy_cases H.
Qed.

Lemma messages_owner_only : owner_only NM.policies NM.user_id.
Proof.
  intros c auth_uid r [H | H]; unfold NM.policies in H;
    destruct c; policy_cases H.
Qed.

Lemma analytics_owner_only :
  owner_only MessageAnalytics.policies MessageAnalytics.user_id.
Proof.
  intros c auth_uid r [H | H]; unfold MessageAnalytics.policies in H;
    destruct c; policy_cases H.
Qed.

(** C5: no policy on profiles, networking_messages or message_analytics
    lets a session select, insert, update or delete a row unless
    [auth.uid()] equals the user_id of that row. *)
Theorem policies_are_owner_only :
  owner_only Profiles.policies Profiles.user_id
  /\ owner_only NM.policies NM.user_id
  /\ owner_only MessageAnalytics.policies MessageAnalytics.user_id.
Proof.
  split; [| split].
  - exact profiles_owner_only.
  - exact messages_owner_only.
  - exact analytics_owner_only.
Qed.

Lemma policies_are_owner_only_witness :
  exists u, Some (js "alice") = Some u
            /\ NM.user_id (row_of (js "alice") false) = Some u.
Proof.
  destruct policies_are_owner_only as [_ [H _]].
  apply (H UPDATE (Some (js "alice")) (row_of (js "alice") false)).
  left. vm_compute. reflexivity.
Defined.

(** *** The CHECK constraint on message_type *)

Lemma member_is_message_type (x : jsstring) :
  existsb (string_eqb x) NM.message_type_values = true ->
  exists t, x = NetworkingCoach.MessageType_string t.
Proof.
  unfold NM.message_type_values. cbn [existsb]. intros H.
  repeat (apply orb_prop in H; destruct H as [H | H]);
    try discriminate H; apply string_eqb_eq in H.
  - exists NetworkingCoach.linkedin. exact H.
  - exists NetworkingCoach.informational. exact H.
  - exists NetworkingCoach.recruiter_followup. exact H.
  - exists NetworkingCoach.mentor_request. exact H.
Qed.

Lemma constraints_valid (r : NM.row) :
  constraints networking_messages r = true -> valid_message_type r.
Proof.
  cbn [constraints networking_messages]. unfold NM.not_null.
  rewrite !andb_true_iff. intros [[[[[[[[_ _] Hsome] _] _] _] _] _] Hcheck].
  unfold NM.message_type_check, valid_message_type in *.
  destruct (NM.message_type r) as [x |]; [| discriminate Hsome].
  cbn [sql_in check_satisfied] in Hcheck.
  destruct (existsb (string_eqb x) NM.message_type_values) eqn:E;
    [| discriminate Hcheck].
  destruct (member_is_message_type x E) as [t Ht].
  exists t. rewrite Ht. reflexivity.
Qed.

Lemma insert_valid role new rows rows1 :
  Forall valid_message_type rows ->
  insert networking_messages role new rows = Done rows1 ->
  Forall valid_message_type rows1.
Proof.
  intros Hrows. unfold insert.
  destruct (negb (may_write networking_messages role INSERT new));
    [discriminate |].
  destruct (constraints networking_messages new) eqn:Hc;
    [| discriminate].
  cbn [negb].
  destruct (negb (unique_keys networking_messages (rows ++ [new])));
    [discriminate |].
  intros E. injection E as <-.
  apply Forall_app. split; [exact Hrows |].
  constructor; [apply constraints_valid, Hc | constructor].
Qed.

Lemma update_row_valid role now set r r1 :
  update_row networking_messages role now set r = Done r1 ->
  valid_message_type r1.
Proof.
  unfold update_row.
  destruct (negb (may_write networking_messages role UPDATE _));
    [discriminate |].
  destruct (constraints networking_messages _) eqn:Hc; [| discriminate].
  cbn [negb]. intros E. injection E as <-.
  apply constraints_valid, Hc.
Qed.

Lemma update_rows_valid role now set w rows :
  Forall valid_message_type rows ->
  forall rows1,
    update_rows networking_messages role now set w rows = Done rows1 ->
    Forall valid_message_type rows1.
Proof.
  induction 1 as [| r rest Hr Hrest IH]; intros rows1; cbn [update_rows].
  - intros E. injection E as <-. constructor.
  - destruct (targeted networking_messages role UPDATE w r).
    + destruct (update_row networking_messages role now set r)
        as [r1 | e] eqn:Er; [| discriminate].
      destruct (update_rows networking_messages role now set w rest)
        as [rest1 | e]; [| discriminate].
      intros E. injection E as <-.
      constructor; [eapply update_row_valid, Er | apply IH; reflexivity].
    + destruct (update_rows networking_messages role now set w rest)
        as [rest1 | e]; [| discriminate].
      intros E. injection E as <-.
      constructor; [exact Hr | apply IH; reflexivity].
Qed.

Lemma execute_valid (s : Statement) (rows : list NM.row) :
  Forall valid_message_type rows ->
  Forall valid_message_type (execute s rows).
Proof.
  intros Hrows. destruct s as [role new | role now set w | role w];
    cbn [execute].
  - destruct (insert networking_messages role new rows) as [rows1 | e] eqn:E.
    + eapply insert_valid; eassumption.
    + exact Hrows.
  - unfold update.
    destruct (update_rows networking_messages role now set w rows)
      as [rows1 | e] eqn:E; [| exact Hrows].
    destruct (unique_keys networking_messages rows1); [| exact Hrows].
    eapply update_rows_valid; eassumption.
  - unfold delete. rewrite Forall_forall in *.
    intros r Hin. apply filter_In in Hin. apply Hrows, Hin.
Qed.

Lemma statements_valid (stmts : list Statement) :
  forall rows,
    Forall valid_message_type rows ->
    Forall valid_message_type
      (fold_left (fun rows s => execute s rows) stmts rows).
Proof.
  induction stmts as [| s stmts IH]; intros rows Hrows; cbn [fold_left].
  - exact Hrows.
  - apply IH, execute_valid, Hrows.
Qed.

(** C10: the values the CHECK constraint accepts are the four members of
    the client's MessageType union, and after any sequence of inserts,
    updates and deletes on the table, run by any role, every stored row
    has one of them as its message_type. *)
Theorem stored_message_types_are_valid :
  NM.message_type_values
  = map NetworkingCoach.MessageType_string
        [ NetworkingCoach.linkedin; NetworkingCoach.informational;
          NetworkingCoach.recruiter_followup;
          NetworkingCoach.mentor_request ]
  /\ forall stmts : list Statement,
       Forall valid_message_type (history stmts).
Proof.
  split.
  - reflexivity.
  - intros stmts. apply statements_valid. constructor.
Qed.

End SchemaProperties.

(* ================================================================== *)
(** * Properties of the message history *)
(* ================================================================== *)

Section History.

Import Schema Database MessageHistory.

Lemma update_rows_pointwise {Row} (T : Table Row) role now set w rows :
  forall rows1,
    update_rows T role now set w rows = Done rows1 ->
    Forall2
      (fun r r1 =>
         if targeted T role UPDATE w r
         then update_row T role now set r = Done r1
         else r1 = r)
      rows rows1.
Proof.
  induction rows as [| r rest IH]; intros rows1; cbn [update_rows].
  - intros E. injection E as <-. constructor.
  - destruct (targeted T role UPDATE w r) eqn:Et.
    + destruct (update_row T role now set r) as [r1 | e] eqn:Er;
        [| discriminate].
      destruct (update_rows T role now set w rest) as [rest1 | e];
        [| discriminate].
      intros E. injection E as <-.
      constructor; [rewrite Et; exact Er | apply IH; reflexivity].
    + destruct (update_rows T role now set w rest) as [rest1 | e];
        [| discriminate].
      intros E. injection E as <-.
      constructor; [rewrite Et; reflexivity | apply IH; reflexivity].
Qed.

Lemma Forall2_impl {A B} (R R' : A -> B -> Prop) l l' :
  (forall a b, R a b -> R' a b) -> Forall2 R l l' -> Forall2 R' l l'.
Proof. intros H. induction 1; constructor; auto. Qed.





(** The flag written to the table is the negation of the caller's copy,
    not of the stored flag: toggled from a list loaded before the message
    became a favourite, the stored flag stays set while the copy in the
    list is flipped to set. *)
Example toggleFavorite_of_a_stale_copy :
  let w' := toggleFavorite alice_session sarah stale_world in
  toggle_succeeds alice_session sarah stale_world
  /\ map NM.is_favorite (messages_table (db stale_world)) = [ Some true ]
  /\ map NM.is_favorite (messages_table (db w')) = [ Some true ]
  /\ map is_favorite (messages (ui stale_world)) = [ false ]
  /\ map is_favorite (messages (ui w')) = [ true ].
Proof.
  split; [eexists; vm_compute; reflexivity |].
  vm_compute. repeat split.
Qed.



End History.

(* ================================================================== *)
(** * Properties of the edge function *)
(* ================================================================== *)

Section Trim.

Lemma trimStart_split (s : jsstring) :
  exists pre, s = pre ++ trimStart s /\ forallb is_white_space pre = true.
Proof.
  induction s as [| c r [pre [E Hpre]]]; cbn [trimStart].
  - exists []. split; reflexivity.
  - destruct (is_white_space c) eqn:Hc.
    + exists (c :: pre). cbn. rewrite Hc, Hpre, <- E. split; reflexivity.
    + exists []. split; reflexivity.
Qed.

Lemma trimStart_head (s : jsstring) c rest :
  trimStart s = c :: rest -> is_white_space c = false.
Proof.
  induction s as [| a r IH]; cbn [trimStart]; [discriminate |].
  destruct (is_white_space a) eqn:Ha; [exact IH |].
  intros E. injection E as <- _. exact Ha.
Qed.

Lemma trimEnd_split (s : jsstring) :
  exists post, s = trimEnd s ++ post /\ forallb is_white_space post = true.
Proof.
  destruct (trimStart_split (rev s)) as [pre [E Hpre]].
  exists (rev pre). split.
  - unfold trimEnd. rewrite <- rev_app_distr, <- E, rev_involutive.
    reflexivity.
  - apply forallb_forall. intros x Hx. apply in_rev in Hx.
    rewrite forallb_forall in Hpre. apply Hpre, Hx.
Qed.

Lemma trimEnd_last (s : jsstring) init c :
  trimEnd s = init ++ [c] -> is_white_space c = false.
Proof.
  unfold trimEnd. intros E.
  apply (f_equal (@rev N)) in E.
  rewrite rev_involutive, rev_app_distr in E. cbn in E.
  eapply trimStart_head, E.
Qed.

Lemma trim_spec (s : jsstring) : trimmed_of s (trim s).
Proof.
  unfold trimmed_of, trim.
  destruct (trimStart_split s) as [pre [E1 Hpre]].
  destruct (trimEnd_split (trimStart s)) as [post [E2 Hpost]].
  split; [| split].
  - exists pre, post. split; [| split; assumption].
    rewrite <- E2. exact E1.
  - intros c rest Ht. rewrite Ht in E2. cbn in E2.
    eapply trimStart_head, E2.
  - intros init c Ht. eapply trimEnd_last, Ht.
Qed.

Lemma trim_nonempty (s : jsstring) : trim s <> [] -> s <> [].
Proof. intros H ->. apply H. reflexivity. Qed.

End Trim.

Section HandlerProperties.

Import EdgeFunction.

Variable tm : TypeErrorMessages.
Variable world : World.

Lemma get_truthy (v : Value) (k : Key) :
  truthy v = true -> get tm v k = Normal (prop v k).
Proof. destruct v; cbn; congruence. Qed.

Lemma get_normal (v c : Value) (k : Key) :
  get tm v k = Normal c -> c = prop v k.
Proof. destruct v; cbn; congruence. Qed.

Lemma prop_object_inv (v : Value) (name : jsstring) props :
  prop v (Named name) = VObject props -> exists pv, v = VObject pv.
Proof. destruct v; cbn; try discriminate. eauto. Qed.

Lemma prop_string_inv (v : Value) (name : jsstring) s :
  prop v (Named name) = VString s -> exists pv, v = VObject pv.
Proof. destruct v; cbn; try discriminate. eauto. Qed.

Lemma prop_index_object_truthy (v : Value) (i : nat) props :
  prop v (Index i) = VObject props -> truthy v = true.
Proof.
  destruct v; cbn; try discriminate; try reflexivity.
  destruct (nth_error s i); discriminate.
Qed.

(** A body with a string at choices[0].message.content has objects all
    the way down to it. *)
Lemma content_path (data : Value) (s : jsstring) :
  lookup data choices_0_message_content = VString s ->
  exists c pf pm,
    get tm data (Named (js "choices")) = Normal c
    /\ truthy c = true
    /\ get tm c (Index 0) = Normal (VObject pf)
    /\ get tm (VObject pf) (Named (js "message")) = Normal (VObject pm)
    /\ get tm (VObject pm) (Named (js "content")) = Normal (VString s).
Proof.
  unfold lookup, choices_0_message_content, choices_0_message.
  cbn [app fold_left]. intros H.
  destruct (prop_string_inv _ _ _ H) as [pm Hm]. rewrite Hm in H.
  destruct (prop_object_inv _ _ _ Hm) as [pf Hf]. rewrite Hf in Hm.
  pose proof (prop_index_object_truthy _ _ _ Hf) as Hc.
  exists (prop data (Named (js "choices"))), pf, pm.
  assert (Hdata : truthy data = true).
  { destruct data; cbn in Hc |- *; try discriminate Hc; reflexivity. }
  repeat split.
  - apply get_truthy, Hdata.
  - exact Hc.
  - rewrite get_truthy by exact Hc. rewrite Hf. reflexivity.
  - cbn [get]. rewrite Hm. reflexivity.
  - cbn [get]. rewrite H. reflexivity.
Qed.

Lemma reply_with_content (data : Value) (s : jsstring) :
  lookup data choices_0_message_content = VString s ->
  reply_with tm data
  = if string_eqb (trim s) []
    then Throw (js "OpenAI returned an empty message")
    else Normal (success_response (trim s)).
Proof.
  intros H.
  destruct (content_path data s H) as (c & pf & pm & Hc & Hct & Hf & Hm & Hs).
  unfold reply_with. rewrite Hc. cbn [bind]. rewrite Hct. cbn [negb].
  rewrite Hf. cbn [bind truthy negb]. rewrite Hm. cbn [bind truthy negb].
  rewrite Hs. cbn [bind truthy call_trim].
  destruct s as [| a s'].
  - cbn [truthy_string negb bind]. reflexivity.
  - cbn [truthy_string negb bind].
    destruct (string_eqb (trim (a :: s')) []); reflexivity.
Qed.

Lemma reply_with_no_message (data : Value) :
  lookup data choices_0_message = VUndefined ->
  exists message, reply_with tm data = Throw message.
Proof.
  unfold lookup, choices_0_message. cbn [fold_left]. intros H.
  unfold reply_with.
  destruct (get tm data (Named (js "choices"))) as [c | m] eqn:Hc;
    cbn [bind]; [| eauto].
  apply get_normal in Hc. subst c.
  destruct (truthy (prop data (Named (js "choices")))) eqn:Hct;
    cbn [negb bind]; [| eauto].
  rewrite (get_truthy _ _ Hct). cbn [bind].
  destruct (truthy (prop (prop data (Named (js "choices"))) (Index 0)))
    eqn:Hft; cbn [negb bind]; [| eauto].
  rewrite (get_truthy _ _ Hft). cbn [bind]. rewrite H.
  cbn [truthy negb bind]. eauto.
Qed.

Lemma relay_not_ok (r : UpstreamResponse) :
  ok r = false -> exists message, relay tm r = Throw message.
Proof.
  intros H. unfold relay. rewrite H. cbn [negb].
  destruct (text r); cbn [bind]; eauto.
Qed.

Lemma relay_no_message (r : UpstreamResponse) (data : Value) :
  json r = Normal data ->
  lookup data choices_0_message = VUndefined ->
  exists message, relay tm r = Throw message.
Proof.
  intros Hj H. destruct (ok r) eqn:Hok; [| apply relay_not_ok, Hok].
  unfold relay. rewrite Hok, Hj. cbn [negb bind].
  apply reply_with_no_message, H.
Qed.

Lemma relay_empty (r : UpstreamResponse) (data : Value) (s : jsstring) :
  json r = Normal data ->
  lookup data choices_0_message_content = VString s ->
  trim s = [] ->
  exists message, relay tm r = Throw message.
Proof.
  intros Hj H Ht. destruct (ok r) eqn:Hok; [| apply relay_not_ok, Hok].
  unfold relay. rewrite Hok, Hj. cbn [negb bind].
  rewrite (reply_with_content _ _ H), Ht. cbn. eauto.
Qed.

Lemma try_block_upstream (req : Request) (r : UpstreamResponse) :
  upstream_response tm world req r ->
  try_block tm world req = relay tm r.
Proof.
  intros (_ & body & params & key & Hb & Hd & Hk & Ht & Hf).
  unfold try_block. rewrite Hb. cbn [bind]. rewrite Hd. cbn [bind].
  rewrite Hk, Ht. cbn [negb bind]. rewrite Hf. reflexivity.
Qed.

Lemma try_block_without_key (req : Request) :
  openAIApiKey world = None \/ openAIApiKey world = Some [] ->
  exists message, try_block tm world req = Throw message.
Proof.
  intros Hk. unfold try_block.
  destruct (req_json req) as [body | m]; cbn [bind]; [| eauto].
  destruct (destructure tm body) as [params | m]; cbn [bind]; [| eauto].
  destruct Hk as [-> | ->]; cbn; eauto.
Qed.

Lemma serve_not_options (req : Request) :
  method req <> js "OPTIONS" ->
  serve tm world req
  = match try_block tm world req with
    | Normal response => response
    | Throw message => error_response message
    end.
Proof.
  intros H. apply string_eqb_neq in H. unfold serve. rewrite H.
  reflexivity.
Qed.

(** C3: when the request is not an OPTIONS preflight and the key is not
    configured, or the upstream response is not ok, or its JSON lacks
    choices[0].message, or the content is empty after trimming, the try
    block throws, and the handler answers with HTTP 500 and the body
    [{ success: false, error: message }] for the message of the error
    thrown; every error thrown in the try block is answered in that
    shape. *)
Theorem failures_are_wrapped (req : Request) :
  method req <> js "OPTIONS" ->
  (listed_failure tm world req ->
   exists message,
     try_block tm world req = Throw message
     /\ serve tm world req = error_response message)
  /\ (forall message,
         try_block tm world req = Throw message ->
         serve tm world req = error_response message).
Proof.
  intros Hm. pose proof (serve_not_options req Hm) as Hs.
  assert (Hwrap : forall message,
             try_block tm world req = Throw message ->
             serve tm world req = error_response message).
  { intros message E. rewrite Hs, E. reflexivity. }
  split; [| exact Hwrap].
  intros Hfail.
  assert (Hthrow : exists message, try_block tm world req = Throw message).
  { destruct Hfail as [Hk | [Hk | [Hno | [Hlack | Hempty]]]].
    - apply try_block_without_key. left. exact Hk.
    - apply try_block_without_key. right. exact Hk.
    - destruct Hno as (r & Hr & Hok).
      rewrite (try_block_upstream req r Hr). apply relay_not_ok, Hok.
    - destruct Hlack as (r & data & Hr & Hj & Hl).
      rewrite (try_block_upstream req r Hr).
      eapply relay_no_message; eassumption.
    - destruct Hempty as (r & data & s & Hr & Hj & Hl & Ht).
      rewrite (try_block_upstream req r Hr).
      eapply relay_empty; eassumption. }
  destruct Hthrow as [message E]. exists message.
  split; [exact E | apply Hwrap, E].
Qed.

(** C4: when the upstream response is ok and its JSON has a string at
    choices[0].message.content that is not empty after trimming, the
    handler answers with the body [{ success: true, message: text }],
    where [text] is that content without its leading and trailing white
    space. *)
Theorem success_relays_trimmed_content
  (req : Request) (r : UpstreamResponse) (data : Value) (s : jsstring) :
  upstream_response tm world req r ->
  ok r = true ->
  json r = Normal data ->
  lookup data choices_0_message_content = VString s ->
  trim s <> [] ->
  serve tm world req = success_response (trim s)
  /\ trimmed_of s (trim s).
Proof.
  intros Hr Hok Hj Hl Ht. split; [| apply trim_spec].
  rewrite (serve_not_options req (proj1 Hr)), (try_block_upstream req r Hr).
  unfold relay. rewrite Hok, Hj. cbn [negb bind].
  rewrite (reply_with_content _ _ Hl).
  apply string_eqb_neq in Ht. rewrite Ht. reflexivity.
Qed.

(** *** The message of each listed failure, when it is the first one *)

Lemma not_configured_message (req : Request) body params :
  req_json req = Normal body ->
  destructure tm body = Normal params ->
  openAIApiKey world = None \/ openAIApiKey world = Some [] ->
  try_block tm world req = Throw (js "OpenAI API key not configured").
Proof.
  intros Hb Hd Hk. unfold try_block. rewrite Hb. cbn [bind].
  rewrite Hd. cbn [bind]. destruct Hk as [-> | ->]; reflexivity.
Qed.


Lemma no_message_message (req : Request) r data :
  upstream_response tm world req r ->
  ok r = true ->
  json r = Normal data ->
  data <> VNull ->
  data <> VUndefined ->
  lookup data choices_0_message = VUndefined ->
  try_block tm world req
  = Throw (js "Invalid response structure from OpenAI").
Proof.
  intros Hr Hok Hj Hn Hu H. rewrite (try_block_upstream req r Hr).
  unfold relay. rewrite Hok, Hj. cbn [negb bind].
  unfold lookup, choices_0_message in H. cbn [fold_left] in H.
  unfold reply_with.
  assert (Hc : get tm data (Named (js "choices"))
               = Normal (prop data (Named (js "choices")))).
  { destruct data; try reflexivity; congruence. }
  rewrite Hc. cbn [bind].
  destruct (truthy (prop data (Named (js "choices")))) eqn:Hct;
    cbn [negb bind]; [| reflexivity].
  rewrite (get_truthy _ _ Hct). cbn [bind].
  destruct (truthy (prop (prop data (Named (js "choices"))) (Index 0)))
    eqn:Hft; cbn [negb bind]; [| reflexivity].
  rewrite (get_truthy _ _ Hft). cbn [bind]. rewrite H. reflexivity.
Qed.

Lemma empty_message (req : Request) r data s :
  upstream_response tm world req r ->
  ok r = true ->
  json r = Normal data ->
  lookup data choices_0_message_content = VString s ->
  trim s = [] ->
  try_block tm world req = Throw (js "OpenAI returned an empty message").
Proof.
  intros Hr Hok Hj H Ht. rewrite (try_block_upstream req r Hr).
  unfold relay. rewrite Hok, Hj. cbn [negb bind].
  rewrite (reply_with_content _ _ H), Ht. reflexivity.
Qed.

End HandlerProperties.

Lemma failures_are_wrapped_witness :
  exists message,
    EdgeFunction.try_block engine world_without_key post_request
    = EdgeFunction.Throw message
    /\ EdgeFunction.serve engine world_without_key post_request
       = error_response message.
Proof.
  destruct (failures_are_wrapped engine world_without_key post_request)
    as [H _].
  - vm_compute. discriminate.
  - apply H. left. reflexivity.
Defined.

Lemma success_relays_trimmed_content_witness :
  EdgeFunction.serve engine padded_world post_request
  = success_response (trim padded_content)
  /\ trimmed_of padded_content (trim padded_content).
Proof.
  apply (success_relays_trimmed_content engine padded_world post_request
           (upstream_ok
              (completion_of (EdgeFunction.VString padded_content)))
           (completion_of (EdgeFunction.VString padded_content))).
  - split; [vm_compute; discriminate |].
    eexists _, _, _. repeat split; reflexivity.
  - reflexivity.
  - reflexivity.
  - vm_compute. reflexivity.
  - vm_compute. discriminate.
Defined.

(** The handler on the sample worlds. *)
Example serve_padded :
  EdgeFunction.resp_body
    (EdgeFunction.serve engine padded_world post_request)
  = Some (EdgeFunction.VObject
            [ (js "success", EdgeFunction.VBoolean true);
              (js "message",
               EdgeFunction.VString (js "Hi Sarah, let us connect.")) ]).
Proof. vm_compute. reflexivity. Qed.

Example serve_without_key :
  EdgeFunction.serve engine world_without_key post_request
  = error_response (js "OpenAI API key not configured").
Proof. vm_compute. reflexivity. Qed.

Example serve_not_ok :
  EdgeFunction.serve engine
    (world_answering
       {| EdgeFunction.ok := false;
          EdgeFunction.status := 429;
          EdgeFunction.statusText := js "Too Many Requests";
          EdgeFunction.text := EdgeFunction.Normal (js "rate limited");
          EdgeFunction.json := EdgeFunction.Throw (js "not JSON") |})
    post_request
  = error_response (js "OpenAI API error: 429 Too Many Requests").
Proof. vm_compute. reflexivity. Qed.

Example serve_blank_content :
  EdgeFunction.serve engine
    (world_answering
       (upstream_ok (completion_of (EdgeFunction.VString (js " \n ")))))
    post_request
  = error_response (js "OpenAI returned an empty message").
Proof. vm_compute. reflexivity. Qed.

Example serve_no_choices :
  EdgeFunction.serve engine
    (world_answering
       (upstream_ok (EdgeFunction.VObject
                       [ (js "choices", EdgeFunction.VArray []) ])))
    post_request
  = error_response (js "Invalid response structure from OpenAI").
Proof. vm_compute. reflexivity. Qed.


(* ================================================================== *)
(** * More properties of the NetworkingCoach component *)
(* ================================================================== *)

Section CoachMore.

Import NetworkingCoach CoachRuns.

Lemma app_nonempty_l {A} (a b : list A) : a <> [] -> a ++ b <> [].
Proof. destruct a; cbn; congruence. Qed.

(** Every template starts with a literal, so no generated message is the
    empty string. *)
Lemma template_nonempty (t : MessageType) (data : MessageData) :
  template (messageTemplates t) data <> [].
Proof.
  destruct t; cbn [messageTemplates template];
    apply app_nonempty_l; vm_compute; discriminate.
Qed.

Lemma shown_step (st : State) (ev : Event) :
  (activeStep st = 3 <-> generatedMessage st <> []) ->
  (copied st = true -> generatedMessage st <> []) ->
  (activeStep (step st ev) = 3 <-> generatedMessage (step st ev) <> [])
  /\ (copied (step st ev) = true -> generatedMessage (step st ev) <> []).
Proof.
  intros H3 Hc. unfold step, dispatch.
  destruct ev as [key | value | value | value | value | | | []];
    cbn [fst]; try (split; assumption).
  - cbn [setActiveStep setMessageData activeStep generatedMessage copied].
    split; [| exact Hc]. rewrite <- H3. lia.
  - destruct (truthy_string value && (activeStep st <? 2)) eqn:E;
      cbn [fst setActiveStep setMessageData activeStep generatedMessage copied];
      split; try assumption.
    apply andb_prop in E. destruct E as [_ E]. apply N.ltb_lt in E.
    split; [lia |]. intros Hg. apply H3 in Hg. lia.
  - destruct (generate_disabled st); [split; assumption |].
    cbn [handleGenerate fst setActiveStep setGeneratedMessage activeStep
         generatedMessage copied].
    split.
    + split; [intros _; apply template_nonempty | reflexivity].
    + intros _. apply template_nonempty.
  - destruct (copy_rendered st) eqn:E; [| split; assumption].
    cbn [handleCopy fst setCopied activeStep generatedMessage copied].
    split; [exact H3 |]. intros _.
    apply truthy_string_nonempty. exact E.
  - cbn [setCopied activeStep generatedMessage copied].
    split; [exact H3 | discriminate].
Qed.

(** X1: in every state the component reaches, the step indicator stands at
    3 exactly when a generated message is displayed, and the Copy button
    shows "Copied!" only while a message is displayed. *)
Theorem step_three_iff_message_shown :
  forall evs : list Event,
    let st := run evs initial in
    (activeStep st = 3 <-> generatedMessage st <> [])
    /\ (copied st = true -> generatedMessage st <> []).
Proof.
  intros evs.
  apply (run_invariant
           (fun st => (activeStep st = 3 <-> generatedMessage st <> [])
                      /\ (copied st = true -> generatedMessage st <> []))).
  - cbn. split; [split; [discriminate | congruence] | discriminate].
  - intros st ev [H3 Hc]. apply shown_step; assumption.
Qed.

(** The message on display changes only when an enabled Generate button
    is clicked, and then to the template of the form as it stands. *)
Lemma displayed_step (st : State) (ev : Event) :
  generatedMessage (step st ev) = generatedMessage st
  \/ (ev = ClickGenerate
      /\ generate_disabled st = false
      /\ generatedMessage (step st ev)
         = template (messageTemplates (messageType (messageData st)))
                    (messageData st)).
Proof.
  unfold step, dispatch.
  destruct ev as [key | value | value | value | value | | | []];
    cbn [fst]; try (left; reflexivity).
  - destruct (truthy_string value && (activeStep st <? 2));
      left; reflexivity.
  - destruct (generate_disabled st) eqn:E; [left; reflexivity |].
    right. repeat split.
  - destruct (copy_rendered st); left; reflexivity.
Qed.

Lemma displayed_origin (evs : list Event) :
  generatedMessage (run evs initial) <> [] ->
  exists earlier later,
    evs = earlier ++ ClickGenerate :: later
    /\ generate_disabled (run earlier initial) = false
    /\ generatedMessage (run evs initial)
       = template
           (messageTemplates
              (messageType (messageData (run earlier initial))))
           (messageData (run earlier initial)).
Proof.
  induction evs as [| ev evs IH] using rev_ind.
  - intros H. exfalso. apply H. reflexivity.
  - rewrite run_snoc.
    destruct (displayed_step (run evs initial) ev) as [E | [-> [Hd Hg]]].
    + rewrite E. intros H.
      destruct (IH H) as [earlier [later [-> [Hd Hg]]]].
      exists earlier, (later ++ [ev]).
      split; [rewrite <- app_assoc; reflexivity |].
      split; assumption.
    + intros _. exists evs, []. repeat split; assumption.
Qed.

Lemma copied_text_is_displayed (evs : list Event) :
  forall (st : State) (text : jsstring),
    In (ClipboardWriteText text) (effects evs st) ->
    exists before after,
      evs = before ++ ClickCopy :: after
      /\ text = generatedMessage (run before st)
      /\ text <> [].
Proof.
  induction evs as [| ev rest IH]; intros st text; cbn [effects].
  - intros [].
  - rewrite in_app_iff. intros [Hnow | Hlater].
    + unfold dispatch in Hnow.
      destruct ev as [key | value | value | value | value | | | []];
        cbn [snd] in Hnow; try contradiction.
      * destruct (truthy_string value && (activeStep st <? 2));
          contradiction.
      * destruct (generate_disabled st); contradiction.
      * destruct (copy_rendered st) eqn:E; [| contradiction].
        cbn [handleCopy snd] in Hnow.
        destruct Hnow as [Eq | [Eq | [Eq | []]]]; try discriminate Eq.
        injection Eq as <-.
        exists [], rest. repeat split.
        apply truthy_string_nonempty. exact E.
    + destruct (IH (step st ev) text Hlater)
        as [before [after [-> [Ht Hne]]]].
      exists (ev :: before), after. repeat split; assumption.
Qed.

(** X2: whatever the user does, a text the component writes to the
    clipboard is the message on display at the moment Copy is clicked,
    and that message is the one an earlier click on the enabled Generate
    button produced: the template of the selected type filled with the
    form as it stood at that click, its recipient name and company not
    empty. *)
Theorem clipboard_holds_displayed_message
  (evs : list Event) (text : jsstring) :
  In (ClipboardWriteText text) (effects evs initial) ->
  exists before after earlier later,
    evs = before ++ ClickCopy :: after
    /\ text = generatedMessage (run before initial)
    /\ before = earlier ++ ClickGenerate :: later
    /\ let st := run earlier initial in
       generate_disabled st = false
       /\ recipientName (messageData st) <> []
       /\ company (messageData st) <> []
       /\ text = template (messageTemplates (messageType (messageData st)))
                          (messageData st).
Proof.
  intros Hin.
  destruct (copied_text_is_displayed evs initial text Hin)
    as [before [after [Hevs [Ht Hne]]]].
  rewrite Ht in Hne.
  destruct (displayed_origin before Hne) as [earlier [later [Hb [Hd Hg]]]].
  exists before, after, earlier, later.
  split; [exact Hevs |]. split; [exact Ht |]. split; [exact Hb |].
  cbv zeta. split; [exact Hd |].
  destruct (enabled_fields_nonempty _ Hd) as [Hn Hc].
  split; [exact Hn |]. split; [exact Hc |].
  rewrite Ht. exact Hg.
Qed.

Lemma clipboard_holds_displayed_message_witness :
  let evs := fill_required_fields ++ [ClickGenerate; ClickCopy] in
  let text := generatedMessage
                (run (fill_required_fields ++ [ClickGenerate]) initial) in
  exists before after earlier later,
    evs = before ++ ClickCopy :: after
    /\ text = generatedMessage (run before initial)
    /\ before = earlier ++ ClickGenerate :: later
    /\ let st := run earlier initial in
       generate_disabled st = false
       /\ recipientName (messageData st) <> []
       /\ company (messageData st) <> []
       /\ text = template (messageTemplates (messageType (messageData st)))
                          (messageData st).
Proof.
  apply (clipboard_holds_displayed_message
           (fill_required_fields ++ [ClickGenerate; ClickCopy])).
  vm_compute. left. reflexivity.
Defined.

End CoachMore.

(* ================================================================== *)
(** * The state machine and the timer of the NetworkingCoach component *)
(* ================================================================== *)

Section StateMachine.

Import NetworkingCoach CoachRuns.

(** Once a recipient name is in the form, the indicator is past step 1. *)
Lemma name_entered_step (st : State) (ev : Event) :
  (recipientName (messageData st) <> [] -> 2 <= activeStep st) ->
  recipientName (messageData (step st ev)) <> [] ->
  2 <= activeStep (step st ev).
Proof.
  intros H. unfold step, dispatch.
  destruct ev as [key | value | value | value | value | | | []];
    cbn [fst]; try exact H.
  - cbn [setActiveStep setMessageData activeStep messageData
         with_messageType recipientName].
    intros Hn. specialize (H Hn). lia.
  - destruct (truthy_string value && (activeStep st <? 2)) eqn:E;
      cbn [fst setActiveStep setMessageData activeStep messageData
           with_recipientName recipientName].
    + intros _. lia.
    + intros Hn. apply andb_false_iff in E. destruct E as [E | E].
      * destruct value; [congruence | discriminate E].
      * apply N.ltb_ge in E. exact E.
  - destruct (generate_disabled st); [exact H |].
    cbn [handleGenerate fst setActiveStep activeStep]. intros _. lia.
  - destruct (copy_rendered st); exact H.
Qed.

Lemma name_entered (evs : list Event) :
  recipientName (messageData (run evs initial)) <> [] ->
  2 <= activeStep (run evs initial).
Proof.
  apply (run_invariant
           (fun st => recipientName (messageData st) <> [] ->
                      2 <= activeStep st)).
  - intros H. exfalso. apply H. reflexivity.
  - apply name_entered_step.
Qed.

Lemma activeStep_follows_transitions (evs : list Event) (ev : Event) :
  activeStep_transition (activeStep (run evs initial))
                        (activeStep (step (run evs initial) ev)).
Proof.
  pose proof (activeStep_range evs) as Hr.
  pose proof (name_entered evs) as Hn.
  rewrite activeStep_step by lia.
  unfold activeStep_transition, activeStep_after.
  destruct ev as [key | value | value | value | value | | | []]; try lia.
  - destruct (truthy_string value && (activeStep (run evs initial) <? 2))
      eqn:E; [| lia].
    apply andb_prop in E. destruct E as [_ E]. apply N.ltb_lt in E. lia.
  - destruct (generate_disabled (run evs initial)) eqn:E; [lia |].
    apply enabled_fields_nonempty in E. destruct E as [E _].
    specialize (Hn E). lia.
Qed.

Lemma activeStep_driven : driven_through_discrete_states activeStep.
Proof.
  split; [| split].
  - exists [1; 2; 3]. intros d [evs <-].
    pose proof (activeStep_range evs) as Hr. cbn [In]. lia.
  - exists 1, 2. split; [discriminate |].
    exists [], (ChangeRecipientName [65]). split; reflexivity.
  - exists 3, 1. split; [discriminate |].
    split; [exists [ ChangeRecipientName [65]; ChangeCompany [66];
                     ClickGenerate ]; reflexivity |].
    split; [exists []; reflexivity |].
    intros [evs [ev [H1 H2]]].
    pose proof (activeStep_follows_transitions evs ev) as Ht.
    rewrite H1, H2 in Ht. unfold activeStep_transition in Ht. lia.
Qed.

(** [copied] moves freely between its two values: a click on Copy sets
    it, the timer clears it. *)
Lemma copied_not_driven : ~ driven_through_discrete_states copied.
Proof.
  intros [_ [_ [d [d' [Hne [_ [_ Hno]]]]]]]. apply Hno.
  destruct d, d'; try congruence.
  - exists [ ChangeRecipientName [65]; ChangeCompany [66]; ClickGenerate;
             ClickCopy ], (TimeoutFires ResetCopied).
    split; reflexivity.
  - exists [ ChangeRecipientName [65]; ChangeCompany [66]; ClickGenerate ],
           ClickCopy.
    split; reflexivity.
Qed.

Lemma listed_size {D : Type} (size : D -> nat) (states : list D) (d : D) :
  In d states -> (size d <= list_max (map size states))%nat.
Proof.
  intros Hin.
  assert (H : Forall (fun k => (k <= list_max (map size states))%nat)
                     (map size states))
    by (apply list_max_le; apply le_n).
  rewrite Forall_forall in H. apply H. apply in_map. exact Hin.
Qed.

(** The form holds whatever text the user types: no finite set of states
    contains every value of [messageData]. *)
Lemma messageData_not_driven : ~ driven_through_discrete_states messageData.
Proof.
  intros [[states Hfin] _].
  set (size := fun d : MessageData => length (recipientName d)).
  set (name := repeat 65 (S (list_max (map size states)))).
  assert (Hin : In (messageData (run [ ChangeRecipientName name ] initial))
                   states)
    by (apply Hfin; exists [ ChangeRecipientName name ]; reflexivity).
  apply (listed_size size) in Hin. revert Hin.
  unfold size at 1. unfold run, step, dispatch. cbn [fold_left].
  destruct (truthy_string name && (activeStep initial <? 2));
    cbn [fst setActiveStep setMessageData messageData with_recipientName
         recipientName];
    unfold name; rewrite repeat_length; lia.
Qed.

Lemma generated_after_fill (c : N) (rest : jsstring) :
  generatedMessage
    (run [ ChangeRecipientName (c :: rest); ChangeCompany [66];
           ClickGenerate ] initial)
  = linkedin_template
      {| recipientName := c :: rest;
         recipientTitle := [];
         company := [66];
         purpose := [];
         messageType := linkedin |}.
Proof. reflexivity. Qed.

(** Nor does any finite set contain every message on display: the
    message embeds the recipient name. *)
Lemma generatedMessage_not_driven :
  ~ driven_through_discrete_states generatedMessage.
Proof.
  intros [[states Hfin] _].
  set (bound := list_max (map (@length N) states)).
  assert (Hin : In (generatedMessage
                      (run [ ChangeRecipientName (65 :: repeat 65 bound);
                             ChangeCompany [66]; ClickGenerate ] initial))
                   states)
    by (apply Hfin; eexists; reflexivity).
  apply (listed_size (@length N)) in Hin. fold bound in Hin.
  rewrite generated_after_fill in Hin. unfold linkedin_template in Hin.
  cbn [recipientName] in Hin.
  rewrite !length_app in Hin. cbn [length] in Hin.
  rewrite repeat_length in Hin. lia.
Qed.

(** What an event does besides updating the state. *)
Lemma effects_of_event (st : State) (ev : Event) :
  snd (dispatch st ev) = []
  \/ (ev = ClickCopy /\ generatedMessage st <> []
      /\ snd (dispatch st ev) = copy_effects (generatedMessage st)).
Proof.
  unfold dispatch.
  destruct ev as [key | value | value | value | value | | | []];
    cbn [snd]; try (left; reflexivity).
  - destruct (truthy_string value && (activeStep st <? 2));
      left; reflexivity.
  - destruct (generate_disabled st); left; reflexivity.
  - destruct (copy_rendered st) eqn:E; [| left; reflexivity].
    right. split; [reflexivity |].
    split; [apply truthy_string_nonempty; exact E | reflexivity].
Qed.

Lemma effects_of_run (evs : list Event) :
  forall (st : State) (e : Effect),
    In e (effects evs st) ->
    In ClickCopy evs /\ exists displayed, In e (copy_effects displayed).
Proof.
  induction evs as [| ev rest IH]; intros st e; cbn [effects].
  - intros [].
  - rewrite in_app_iff. intros [Hnow | Hlater].
    + destruct (effects_of_event st ev) as [E | [-> [_ E]]].
      * rewrite E in Hnow. destruct Hnow.
      * rewrite E in Hnow. split; [left; reflexivity |].
        exists (generatedMessage st). exact Hnow.
    + destruct (IH _ _ Hlater) as [Hc Hd].
      split; [right; exact Hc | exact Hd].
Qed.

(** C6, as stated, fails twice over.  The step indicator is a state
    variable that the handlers drive through the states 1, 2 and 3:
    typing a recipient name moves it from 1 to 2 and nothing moves it
    from 3 back to 1.  And a timer is set: after a message is generated,
    a click on Copy sets the 2000 ms timeout that resets [copied]. *)
Lemma activeStep_is_driven_and_a_timer_is_set :
  ~ no_state_machine /\ ~ no_scheduling.
Proof.
  split.
  - intros [_ [_ [_ H]]]. apply H. exact activeStep_driven.
  - intros H.
    apply (H [ ChangeRecipientName [65]; ChangeCompany [66]; ClickGenerate;
               ClickCopy ] ResetCopied 2000).
    vm_compute. right. left. reflexivity.
Qed.

(** C6, amended.  A state machine does exist: of the four state variables
    of the NetworkingCoach component one, the step indicator, is driven
    through discrete states by the event handlers.  [activeStep] starts at
    1, takes exactly the values 1, 2 and 3, and moves exactly along the
    transitions 1 to 2 and 2 to 3 (or stays): entering a non-empty
    recipient name while it is below 2 moves it to 2, an enabled Generate
    Message button moves it to 3, every other event leaves it as it is.
    The other three variables are not driven in this way: [copied] moves
    freely between its two values, [messageData] and [generatedMessage]
    hold texts without bound.
    Scheduling exists as one timer: an event has an effect besides the
    state only if it is a click on Copy while a message is displayed, and
    then the effects are the clipboard write of that message, the 2000 ms
    timeout and a fixed toast; when the timeout fires it resets [copied]
    and nothing else.  The handlers do nothing more: no concurrency
    coordination and no custom protocol; and each generation computes the
    message from the form as it stands, whatever was generated before: no
    caching. *)
Theorem activeStep_is_the_only_state_machine :
  (driven_through_discrete_states activeStep
   /\ activeStep initial = 1
   /\ (forall d, takes activeStep d <-> d = 1 \/ d = 2 \/ d = 3)
   /\ (forall d d', moves activeStep d d' <-> activeStep_transition d d')
   /\ (forall evs ev,
         let st := run evs initial in
         activeStep (step st ev) = activeStep_after st ev))
  /\ (~ driven_through_discrete_states copied
      /\ ~ driven_through_discrete_states messageData
      /\ ~ driven_through_discrete_states generatedMessage)
  /\ ((forall st ev,
         snd (dispatch st ev) = []
         \/ (ev = ClickCopy /\ generatedMessage st <> []
             /\ snd (dispatch st ev) = copy_effects (generatedMessage st)))
      /\ (forall evs e,
            In e (effects evs initial) ->
            In ClickCopy evs /\ exists displayed, In e (copy_effects displayed))
      /\ (forall st callback,
            let st' := step st (TimeoutFires callback) in
            copied st' = false
            /\ messageData st' = messageData st
            /\ generatedMessage st' = generatedMessage st
            /\ activeStep st' = activeStep st))
  /\ (forall st st',
         messageData st = messageData st' ->
         generatedMessage (fst (handleGenerate st))
         = generatedMessage (fst (handleGenerate st'))).
Proof.
  split; [| split; [| split]].
  - split; [exact activeStep_driven |]. split; [reflexivity |].
    split; [| split].
    + intros d. split.
      * intros [evs <-]. pose proof (activeStep_range evs). lia.
      * intros [-> | [-> | ->]].
        -- exists []. reflexivity.
        -- exists [ ChangeRecipientName [65] ]. reflexivity.
        -- exists [ ChangeRecipientName [65]; ChangeCompany [66];
                    ClickGenerate ]. reflexivity.
    + intros d d'. split.
      * intros [evs [ev [<- <-]]]. apply activeStep_follows_transitions.
      * intros [[-> [-> | ->]] | [[-> [-> | ->]] | [-> ->]]].
        -- exists [], (ClickType informational). split; reflexivity.
        -- exists [], (ChangeRecipientName [65]). split; reflexivity.
        -- exists [ ChangeRecipientName [65] ], (ChangeCompany [66]).
           split; reflexivity.
        -- exists [ ChangeRecipientName [65]; ChangeCompany [66] ],
                  ClickGenerate.
           split; reflexivity.
        -- exists [ ChangeRecipientName [65]; ChangeCompany [66];
                    ClickGenerate ], ClickCopy.
           split; reflexivity.
    + intros evs ev st. apply activeStep_step.
      pose proof (activeStep_range evs). unfold st. lia.
  - split; [exact copied_not_driven |].
    split; [exact messageData_not_driven | exact generatedMessage_not_driven].
  - split; [exact effects_of_event |].
    split; [intros evs e; apply effects_of_run |].
    intros st []. repeat split.
  - intros st st' H. unfold handleGenerate.
    cbn [fst setActiveStep setGeneratedMessage generatedMessage messageData].
    rewrite H. reflexivity.
Qed.

End StateMachine.

Section StudentMore.

Import NetworkingCoachStudent StudentForm.

Lemma student_run_snoc (evs : list Event) (ev : Event) (st : State) :
  run (evs ++ [ev]) st = step (run evs st) ev.
Proof. unfold run. rewrite fold_left_app. reflexivity. Qed.

Lemma student_enabled_fields (st : State) :
  generate_disabled st = false ->
  recipientName (messageData st) <> [] /\ studentName (messageData st) <> [].
Proof.
  unfold generate_disabled.
  destruct (recipientName (messageData st));
    destruct (studentName (messageData st));
    cbn; intros H; split; congruence.
Qed.

Lemma student_generated_step (st : State) (ev : Event) :
  generatedMessage (step st ev) = generatedMessage st
  \/ (exists data,
         recipientName data <> [] /\ studentName data <> []
         /\ generatedMessage (step st ev)
            = template (messageTemplates (messageType data)) data).
Proof.
  unfold step, dispatch.
  destruct ev as [value | f value | | | []]; cbn [fst];
    try (left; reflexivity).
  - destruct (generate_disabled st) eqn:E; [left; reflexivity |].
    right. exists (messageData st).
    destruct (student_enabled_fields st E) as [Hn Hs].
    repeat split; assumption.
  - destruct (copy_rendered st); left; reflexivity.
Qed.

(** X3: in the variant with student details the Generate Message button is
    enabled only when the recipient's name and the student's own name are
    filled in, so every message it shows was generated from a form with
    both; the company is not required there and may be empty. *)
Theorem student_generate_requires_both_names :
  (forall evs : list Event,
      let st := run evs initial in
      (generate_disabled st = false ->
       recipientName (messageData st) <> []
       /\ studentName (messageData st) <> [])
      /\ (generatedMessage st <> [] ->
          exists data,
            recipientName data <> [] /\ studentName data <> []
            /\ generatedMessage st
               = template (messageTemplates (messageType data)) data))
  /\ (exists evs : list Event,
         let st := run evs initial in
         generate_disabled st = false /\ company (messageData st) = []).
Proof.
  split.
  - intros evs st. split; [apply student_enabled_fields |].
    subst st. induction evs as [| ev evs IH] using rev_ind.
    + intros H. exfalso. apply H. reflexivity.
    + rewrite student_run_snoc. intros Hne.
      destruct (student_generated_step (run evs initial) ev) as [E | G].
      * rewrite E in Hne |- *. apply IH, Hne.
      * exact G.
  - exists [ Change FRecipientName (js "Sarah Johnson");
             Change FStudentName (js "Alex Kim") ].
    vm_compute. repeat split.
Qed.

End StudentMore.

(* ================================================================== *)
(** * More properties of the edge function *)
(* ================================================================== *)

Section HandlerMore.

Import EdgeFunction.

Variable tm : TypeErrorMessages.
Variable world : World.

(** A value found under a property name sits in an object. *)
Lemma prop_named_defined (v : Value) (name : jsstring) :
  prop v (Named name) <> VUndefined -> truthy v = true.
Proof. destruct v; cbn; congruence. Qed.

(** The reply is a success only for a string at choices[0].message.content
    that is not empty after trimming. *)
Lemma reply_with_normal (data : Value) (response : Response) :
  reply_with tm data = Normal response ->
  exists s,
    lookup data choices_0_message_content = VString s
    /\ trim s <> []
    /\ response = success_response (trim s).
Proof.
  unfold reply_with, lookup, choices_0_message_content, choices_0_message.
  cbn [app fold_left].
  destruct (get tm data (Named (js "choices"))) as [c | m] eqn:Hc;
    cbn [bind]; [| discriminate].
  apply get_normal in Hc. subst c.
  set (c := prop data (Named (js "choices"))).
  destruct (truthy c) eqn:Hct; cbn [negb bind]; [| discriminate].
  rewrite (get_truthy tm _ _ Hct). cbn [bind].
  set (f := prop c (Index 0)).
  destruct (truthy f) eqn:Hft; cbn [negb bind]; [| discriminate].
  rewrite (get_truthy tm _ _ Hft). cbn [bind].
  set (msg := prop f (Named (js "message"))).
  destruct (truthy msg) eqn:Hmt; cbn [negb bind]; [| discriminate].
  rewrite (get_truthy tm _ _ Hmt). cbn [bind].
  set (g := prop msg (Named (js "content"))).
  destruct (truthy g) eqn:Hgt; cbn [negb bind]; [| discriminate].
  destruct g as [| | b | x | s | items | props] eqn:Hg;
    cbn [call_trim bind]; try discriminate.
  destruct (string_eqb (trim s) []) eqn:Hs; cbn [bind]; [discriminate |].
  intros E. injection E as <-. exists s.
  split; [reflexivity |]. split; [| reflexivity].
  apply string_eqb_neq, Hs.
Qed.

Lemma relay_normal (r : UpstreamResponse) (response : Response) :
  relay tm r = Normal response ->
  ok r = true
  /\ exists data, json r = Normal data /\ reply_with tm data = Normal response.
Proof.
  unfold relay. destruct (ok r); cbn [negb].
  - cbn [bind]. destruct (json r) as [data | m]; cbn [bind]; [| discriminate].
    intros H. split; [reflexivity |]. exists data. split; [reflexivity | exact H].
  - destruct (text r); cbn [bind]; discriminate.
Qed.

Lemma try_block_normal (req : Request) (response : Response) :
  method req <> js "OPTIONS" ->
  try_block tm world req = Normal response ->
  exists r, upstream_response tm world req r /\ relay tm r = Normal response.
Proof.
  intros Hm. unfold try_block.
  destruct (req_json req) as [body | m] eqn:Hb; cbn [bind]; [| discriminate].
  destruct (destructure tm body) as [params | m] eqn:Hd; cbn [bind];
    [| discriminate].
  destruct (openAIApiKey world) as [key |] eqn:Hk; cbn [bind];
    [| discriminate].
  destruct (truthy_string key) eqn:Ht; cbn [negb bind]; [| discriminate].
  destruct (fetch_completion world key params) as [r | m] eqn:Hf;
    cbn [bind]; [| discriminate].
  intros H. exists r. split; [| exact H].
  split; [exact Hm |]. exists body, params, key. repeat split; assumption.
Qed.

(** X4: a request that is not a preflight is answered with a success only
    when the handler got an ok response from upstream whose JSON has a
    string at choices[0].message.content that is not empty after trimming;
    the answer then carries that trimmed text, so a success never carries
    an empty message. *)
Theorem success_only_for_usable_content (req : Request) :
  method req <> js "OPTIONS" ->
  resp_status (serve tm world req) = 200 ->
  exists r data s,
    upstream_response tm world req r
    /\ ok r = true
    /\ json r = Normal data
    /\ lookup data choices_0_message_content = VString s
    /\ trim s <> []
    /\ serve tm world req = success_response (trim s).
Proof.
  intros Hm. rewrite (serve_not_options tm world req Hm).
  destruct (try_block tm world req) as [response | m] eqn:Ht;
    [| cbn; discriminate].
  intros _.
  destruct (try_block_normal req response Hm Ht) as (r & Hr & Hrelay).
  destruct (relay_normal r response Hrelay) as (Hok & data & Hj & Hreply).
  destruct (reply_with_normal data response Hreply) as (s & Hl & Hs & ->).
  exists r, data, s. repeat split; try assumption; apply Hr.
Qed.

(** X5: every response of the handler, to any request, has status 200 or
    500 and carries the two CORS headers. *)
Theorem responses_carry_cors_headers (req : Request) :
  (resp_status (serve tm world req) = 200
   \/ resp_status (serve tm world req) = 500)
  /\ incl corsHeaders (resp_headers (serve tm world req)).
Proof.
  unfold serve. destruct (string_eqb (method req) (js "OPTIONS")) eqn:Hm.
  - cbn [resp_status resp_headers]. split; [left; reflexivity |].
    apply incl_refl.
  - apply string_eqb_neq in Hm.
    destruct (try_block tm world req) as [response | m] eqn:Ht.
    + destruct (try_block_normal req response Hm Ht) as (r & _ & Hrelay).
      destruct (relay_normal r response Hrelay) as (_ & data & _ & Hreply).
      destruct (reply_with_normal data response Hreply) as (s & _ & _ & ->).
      cbn [success_response resp_status resp_headers].
      split; [left; reflexivity | apply incl_appl, incl_refl].
    + cbn [resp_status resp_headers].
      split; [right; reflexivity | apply incl_appl, incl_refl].
Qed.

(** The reply for a body whose choices[0].message is an object. *)
Lemma reply_with_message (data : Value) pm :
  lookup data choices_0_message = VObject pm ->
  reply_with tm data
  = (let g := prop (VObject pm) (Named (js "content")) in
     if negb (truthy g)
     then Throw (js "OpenAI returned an empty message")
     else
       match call_trim tm g with
       | Normal trimmed =>
           if string_eqb trimmed []
           then Throw (js "OpenAI returned an empty message")
           else Normal (success_response trimmed)
       | Throw m => Throw m
       end).
Proof.
  unfold lookup, choices_0_message. cbn [fold_left]. intros H.
  destruct (prop_object_inv _ _ _ H) as [pf Hf].
  pose proof (prop_index_object_truthy _ _ _ Hf) as Hct.
  assert (Hdt : truthy data = true).
  { apply (prop_named_defined data (js "choices")).
    intros E. rewrite E in Hct. discriminate Hct. }
  unfold reply_with.
  rewrite (get_truthy tm _ _ Hdt). cbn [bind]. rewrite Hct. cbn [negb].
  rewrite (get_truthy tm _ _ Hct). cbn [bind]. rewrite Hf.
  cbn [truthy negb bind get]. rewrite ?Hf in H. rewrite H.
  cbn [truthy negb bind get].
  destruct (truthy (prop (VObject pm) (Named (js "content")))); cbn [negb bind];
    [| reflexivity].
  destruct (call_trim tm (prop (VObject pm) (Named (js "content"))))
    as [trimmed | m]; cbn [bind]; [| reflexivity].
  destruct (string_eqb trimmed []); reflexivity.
Qed.

(** X6: when upstream is ok and choices[0].message is an object, a content
    that is missing, null, false, zero or the empty string is answered with
    500 and the message 'OpenAI returned an empty message', and a content
    that is truthy but not a string (a number, true, an array, an object)
    is answered with 500 and the message of the TypeError of calling
    [trim] on it. *)
Theorem unusable_content_is_an_error
  (req : Request) (r : UpstreamResponse) (data : Value) pm :
  upstream_response tm world req r ->
  ok r = true ->
  json r = Normal data ->
  lookup data choices_0_message = VObject pm ->
  let g := prop (VObject pm) (Named (js "content")) in
  (truthy g = false ->
   serve tm world req
   = error_response (js "OpenAI returned an empty message"))
  /\ (truthy g = true ->
      (forall s, g <> VString s) ->
      serve tm world req = error_response (is_not_a_function tm)).
Proof.
  intros Hr Hok Hj Hl g.
  assert (Hs : serve tm world req
               = match reply_with tm data with
                 | Normal response => response
                 | Throw message => error_response message
                 end).
  { rewrite (serve_not_options tm world req (proj1 Hr)),
      (try_block_upstream tm world req r Hr).
    unfold relay. rewrite Hok, Hj. reflexivity. }
  rewrite Hs, (reply_with_message data pm Hl). fold g. cbn zeta.
  split.
  - intros Hg. rewrite Hg. reflexivity.
  - intros Hg Hns. rewrite Hg. cbn [negb].
    destruct g as [| | b | x | s | items | props]; cbn [call_trim];
      try reflexivity; try discriminate Hg.
    exfalso. apply (Hns s). reflexivity.
Qed.


End HandlerMore.

(** X8: without a configured key the handler never consults upstream: its
    answer is the same whatever the fetch would have returned. *)
Theorem missing_key_never_calls_upstream
  (tm : EdgeFunction.TypeErrorMessages) (req : EdgeFunction.Request)
  (key : option jsstring)
  (fetch1 fetch2 : jsstring -> EdgeFunction.Params ->
                   EdgeFunction.Completion EdgeFunction.UpstreamResponse) :
  key = None \/ key = Some [] ->
  EdgeFunction.serve tm
    {| EdgeFunction.openAIApiKey := key;
       EdgeFunction.fetch_completion := fetch1 |} req
  = EdgeFunction.serve tm
      {| EdgeFunction.openAIApiKey := key;
         EdgeFunction.fetch_completion := fetch2 |} req.
Proof.
  intros Hk. unfold EdgeFunction.serve, EdgeFunction.try_block.
  destruct (string_eqb (EdgeFunction.method req) (js "OPTIONS"));
    [reflexivity |].
  destruct (EdgeFunction.req_json req) as [body | m];
    cbn [EdgeFunction.bind]; [| reflexivity].
  destruct (EdgeFunction.destructure tm body) as [params | m];
    cbn [EdgeFunction.bind]; [| reflexivity].
  destruct Hk as [-> | ->]; reflexivity.
Qed.

Lemma missing_key_never_calls_upstream_witness :
  EdgeFunction.serve engine
    {| EdgeFunction.openAIApiKey := None;
       EdgeFunction.fetch_completion :=
         fun _ _ => EdgeFunction.Throw (js "network down") |} post_request
  = EdgeFunction.serve engine
      {| EdgeFunction.openAIApiKey := None;
         EdgeFunction.fetch_completion :=
           fun _ _ =>
             EdgeFunction.Normal
               (upstream_ok
                  (completion_of (EdgeFunction.VString padded_content))) |}
      post_request.
Proof.
  apply missing_key_never_calls_upstream. left. reflexivity.
Defined.

Lemma success_only_for_usable_content_witness :
  exists r data s,
    upstream_response engine padded_world post_request r
    /\ EdgeFunction.ok r = true
    /\ EdgeFunction.json r = EdgeFunction.Normal data
    /\ lookup data choices_0_message_content = EdgeFunction.VString s
    /\ trim s <> []
    /\ EdgeFunction.serve engine padded_world post_request
       = success_response (trim s).
Proof.
  apply success_only_for_usable_content.
  - vm_compute. discriminate.
  - vm_compute. reflexivity.
Defined.

(* ================================================================== *)
(** * More properties of the database *)
(* ================================================================== *)

Section DatabaseMore.

Import Schema Database.

Lemma filter_all {A} (f : A -> bool) (l : list A) :
  (forall a, In a l -> f a = true) -> filter f l = l.
Proof.
  induction l as [| a l IH]; cbn; intros H; [reflexivity |].
  rewrite (H a (or_introl eq_refl)). f_equal. apply IH.
  intros b Hb. apply H. right. exact Hb.
Qed.

Lemma filter_none {A} (f : A -> bool) (l : list A) :
  (forall a, In a l -> f a = false) -> filter f l = [].
Proof.
  induction l as [| a l IH]; cbn; intros H; [reflexivity |].
  rewrite (H a (or_introl eq_refl)). apply IH.
  intros b Hb. apply H. right. exact Hb.
Qed.

Lemma Forall2_In_l {A B} (R : A -> B -> Prop) l l' a :
  Forall2 R l l' -> In a l -> exists b, In b l' /\ R a b.
Proof.
  induction 1 as [| x y l l' Hxy _ IH]; cbn; [intros [] |].
  intros [<- | Hin].
  - exists y. split; [left; reflexivity | exact Hxy].
  - destruct (IH Hin) as [b [Hb Hab]]. exists b. split; [right |]; assumption.
Qed.

Lemma Forall2_In_r {A B} (R : A -> B -> Prop) l l' b :
  Forall2 R l l' -> In b l' -> exists a, In a l /\ R a b.
Proof.
  induction 1 as [| x y l l' Hxy _ IH]; cbn; [intros [] |].
  intros [<- | Hin].
  - exists x. split; [left; reflexivity | exact Hxy].
  - destruct (IH Hin) as [a [Ha Hab]]. exists a. split; [right |]; assumption.
Qed.

(** What the policies of [networking_messages] come to. *)
Lemma messages_using (c : Command) auth (r : NM.row) :
  using_permits NM.policies c auth r
  = match c with INSERT => false | _ => owned_by auth r end.
Proof.
  unfold using_permits, using_of, NM.policies, owned_by.
  destruct c;
    cbn [existsb policy_for policy_using Command_eqb andb orb];
    rewrite ?orb_false_r; reflexivity.
Qed.

Lemma messages_check (c : Command) auth (r : NM.row) :
  check_permits NM.policies c auth r = owned_by auth r.
Proof.
  unfold check_permits, with_check_of, using_of, NM.policies, owned_by.
  destruct c;
    cbn [existsb policy_for policy_using policy_with_check Command_eqb
         andb orb];
    rewrite ?orb_false_r; reflexivity.
Qed.

Lemma owned_by_some auth (r : NM.row) :
  owned_by auth r = true <-> exists u, auth = Some u /\ NM.user_id r = Some u.
Proof.
  unfold owned_by. split.
  - apply is_true_sql_eq.
  - intros (u & -> & ->). cbn. rewrite string_eqb_refl. reflexivity.
Qed.

Lemma messages_targeted (c : Command) auth w (r : NM.row) :
  targeted networking_messages (Client auth) c w r = true ->
  owned_by auth r = true.
Proof.
  unfold targeted, may_use. cbn [policies networking_messages].
  rewrite !messages_using, !andb_true_iff. intros [_ H]. exact H.
Qed.

Lemma update_rows_untargeted {Row} (T : Table Row) role now set w rows :
  (forall r, In r rows -> targeted T role UPDATE w r = false) ->
  update_rows T role now set w rows = Done rows.
Proof.
  induction rows as [| r rest IH]; intros H; cbn [update_rows];
    [reflexivity |].
  rewrite (H r (or_introl eq_refl)), IH; [reflexivity |].
  intros r' Hr'. apply H. right. exact Hr'.
Qed.

Lemma signed_out_owns_nothing (r : NM.row) : owned_by None r = false.
Proof. reflexivity. Qed.

(** X10: a client that is not signed in can neither read nor change
    [networking_messages]: its SELECT returns nothing, and its INSERT,
    UPDATE and DELETE leave the table as it was. *)
Theorem signed_out_client_is_powerless (rows : list NM.row) :
  (forall w, select networking_messages (Client None) w rows = [])
  /\ (forall new, execute (Insert (Client None) new) rows = rows)
  /\ (forall now set w, execute (Update (Client None) now set w) rows = rows)
  /\ (forall w, execute (Delete (Client None) w) rows = rows).
Proof.
  split; [| split; [| split]].
  - intros w. unfold select. apply filter_none. intros r _.
    unfold may_use. cbn [policies networking_messages].
    rewrite messages_using. cbn. apply andb_false_r.
  - intros new. cbn [execute]. unfold insert, may_write.
    cbn [policies networking_messages]. rewrite messages_check.
    reflexivity.
  - intros now set w. cbn [execute]. unfold update.
    rewrite update_rows_untargeted.
    + destruct (unique_keys networking_messages rows); reflexivity.
    + intros r _. unfold targeted, may_use.
      cbn [policies networking_messages]. rewrite !messages_using. cbn.
      rewrite !andb_false_r. reflexivity.
  - intros w. cbn [execute]. unfold delete. apply filter_all. intros r _.
    unfold targeted, may_use. cbn [policies networking_messages].
    rewrite !messages_using. cbn. rewrite !andb_false_r. reflexivity.
Qed.

(** X11: no statement of a client removes or changes a row of
    [networking_messages] that belongs to somebody else: the row is still
    in the table, as it was, after the statement. *)
Theorem other_users_rows_survive
  (auth : option UUID) (s : Statement) (rows : list NM.row) (r : NM.row) :
  by_client auth s ->
  In r rows ->
  owned_by auth r = false ->
  In r (execute s rows).
Proof.
  intros Hs Hin Hown.
  assert (Hnt : forall c w, targeted networking_messages (Client auth) c w r
                            = false).
  { intros c w.
    destruct (targeted networking_messages (Client auth) c w r) eqn:E;
      [| reflexivity].
    apply messages_targeted in E. congruence. }
  destruct s as [role new | role now set w | role w]; cbn in Hs; subst role;
    cbn [execute].
  - unfold insert.
    destruct (negb (may_write networking_messages (Client auth) INSERT new));
      [exact Hin |].
    destruct (negb (constraints networking_messages new)); [exact Hin |].
    destruct (negb (unique_keys networking_messages (rows ++ [new])));
      [exact Hin |].
    apply in_or_app. left. exact Hin.
  - unfold update.
    destruct (update_rows networking_messages (Client auth) now set w rows)
      as [rows1 | e] eqn:E; [| exact Hin].
    destruct (unique_keys networking_messages rows1); [| exact Hin].
    apply update_rows_pointwise in E.
    destruct (Forall2_In_l _ _ _ r E Hin) as [r1 [Hr1 Hrel]].
    rewrite Hnt in Hrel. subst r1. exact Hr1.
  - unfold delete. apply filter_In. split; [exact Hin |].
    rewrite Hnt. reflexivity.
Qed.

(** X12: every row a statement of a client adds to [networking_messages]
    or changes in it belongs to that client afterwards: a row of the table
    after the statement either was in the table before or is owned by the
    signed-in user.  A client can neither insert a row for somebody else
    nor hand one of its rows over. *)
Theorem written_rows_belong_to_caller
  (auth : option UUID) (s : Statement) (rows : list NM.row) (r' : NM.row) :
  by_client auth s ->
  In r' (execute s rows) ->
  In r' rows \/ owned_by auth r' = true.
Proof.
  intros Hs.
  destruct s as [role new | role now set w | role w]; cbn in Hs; subst role;
    cbn [execute].
  - unfold insert.
    destruct (may_write networking_messages (Client auth) INSERT new) eqn:Hw;
      cbn [negb]; [| left; assumption].
    destruct (negb (constraints networking_messages new));
      [left; assumption |].
    destruct (negb (unique_keys networking_messages (rows ++ [new])));
      [left; assumption |].
    intros Hin. apply in_app_or in Hin. destruct Hin as [Hin | [<- | []]].
    + left. exact Hin.
    + right. unfold may_write in Hw. cbn [policies networking_messages] in Hw.
      rewrite messages_check in Hw. exact Hw.
  - unfold update.
    destruct (update_rows networking_messages (Client auth) now set w rows)
      as [rows1 | e] eqn:E; [| left; assumption].
    destruct (unique_keys networking_messages rows1); [| left; assumption].
    intros Hin. apply update_rows_pointwise in E.
    destruct (Forall2_In_r _ _ _ r' E Hin) as [r [Hr Hrel]].
    destruct (targeted networking_messages (Client auth) UPDATE w r).
    + right. unfold update_row in Hrel.
      destruct (may_write networking_messages (Client auth) UPDATE
                  (before_update networking_messages now (set r))) eqn:Hw;
        cbn [negb] in Hrel; [| discriminate].
      destruct (negb (constraints networking_messages _)); [discriminate |].
      injection Hrel as <-.
      unfold may_write in Hw. cbn [policies networking_messages] in Hw.
      rewrite messages_check in Hw. exact Hw.
    + left. subst r'. exact Hr.
  - unfold delete. intros Hin. apply filter_In in Hin. left. apply Hin.
Qed.

(** X13: no statement of a client updates or deletes a row of
    [message_analytics], and none deletes a profile: there is no UPDATE
    or DELETE policy on [message_analytics] and no DELETE policy on
    [profiles], so such a statement changes nothing.  Rows of the
    analytics do disappear another way: deleting messages takes with it
    exactly the analytics rows that refer to a deleted message, whoever
    owns them. *)
Theorem clients_cannot_update_or_delete_analytics (auth : option UUID) :
  (forall w rows, delete message_analytics (Client auth) w rows = rows)
  /\ (forall now set w rows rows1,
         update message_analytics (Client auth) now set w rows = Done rows1 ->
         rows1 = rows)
  /\ (forall w rows, delete Accounts.profiles (Client auth) w rows = rows)
  /\ (forall w d a,
         In a (analytics_table
                 (Accounts.delete_messages (Client auth) w d))
         <-> In a (analytics_table d)
             /\ forall r,
                  In r (messages_table d) ->
                  targeted networking_messages (Client auth) DELETE w r
                  = true ->
                  is_true (sql_eq (MA.message_id a) (NM.id r)) = false).
Proof.
  assert (Ha : forall c w r, c = UPDATE \/ c = DELETE ->
                 targeted message_analytics (Client auth) c w r = false).
  { intros c w r Hc. unfold targeted, may_use, using_permits, using_of.
    cbn [policies message_analytics]. unfold MA.policies.
    destruct Hc as [-> | ->];
      cbn [existsb policy_for policy_using Command_eqb andb orb];
      rewrite !andb_false_r; reflexivity. }
  split; [| split; [| split]].
  - intros w rows. unfold delete. apply filter_all. intros r _.
    rewrite Ha; [reflexivity | right; reflexivity].
  - intros now set w rows rows1. unfold update.
    rewrite update_rows_untargeted.
    + destruct (unique_keys message_analytics rows); [| discriminate].
      intros H. injection H as <-. reflexivity.
    + intros r _. apply Ha. left. reflexivity.
  - intros w rows. unfold delete. apply filter_all. intros r _.
    unfold targeted, may_use, using_permits, using_of.
    cbn [policies Accounts.profiles]. unfold Profiles.policies.
    cbn [existsb policy_for policy_using Command_eqb andb orb].
    rewrite !andb_false_r. reflexivity.
  - intros w d a. unfold Accounts.delete_messages.
    cbn [analytics_table]. rewrite filter_In, negb_true_iff.
    split; intros [Hin Hno]; (split; [exact Hin |]).
    + intros r Hr Ht.
      destruct (is_true (sql_eq (MA.message_id a) (NM.id r))) eqn:E;
        [| reflexivity].
      exfalso. apply not_true_iff_false in Hno. apply Hno.
      apply existsb_exists. exists r. split; [| exact E].
      apply filter_In. split; assumption.
    + apply not_true_iff_false. intros Hex.
      apply existsb_exists in Hex. destruct Hex as [r [Hr E]].
      apply filter_In in Hr. destruct Hr as [Hr Ht].
      rewrite (Hno r Hr Ht) in E. discriminate E.
Qed.

(** *** Constraints and the primary key *)

Lemma existsb_filter {A} (g f : A -> bool) (l : list A) :
  existsb g (filter f l) = true -> existsb g l = true.
Proof.
  rewrite !existsb_exists. intros [x [Hx Hg]].
  apply filter_In in Hx. exists x. split; [apply Hx | exact Hg].
Qed.

Lemma unique_keys_filter {Row} (T : Table Row) (f : Row -> bool) rows :
  unique_keys T rows = true -> unique_keys T (filter f rows) = true.
Proof.
  induction rows as [| r rest IH]; cbn [unique_keys filter];
    [reflexivity |].
  rewrite andb_true_iff, negb_true_iff. intros [Hr Hrest].
  destruct (f r); [| apply IH, Hrest].
  cbn [unique_keys]. rewrite andb_true_iff, negb_true_iff.
  split; [| apply IH, Hrest].
  destruct (existsb _ (filter f rest)) eqn:E; [| reflexivity].
  apply existsb_filter in E. congruence.
Qed.

Lemma execute_well_formed (s : Statement) (rows : list NM.row) :
  well_formed rows -> well_formed (execute s rows).
Proof.
  intros [Hc Hu]. destruct s as [role new | role now set w | role w];
    cbn [execute].
  - unfold insert.
    destruct (negb (may_write networking_messages role INSERT new));
      [split; assumption |].
    destruct (constraints networking_messages new) eqn:Hn; cbn [negb];
      [| split; assumption].
    destruct (unique_keys networking_messages (rows ++ [new])) eqn:Hk;
      cbn [negb]; [| split; assumption].
    split; [| exact Hk]. apply Forall_app. split; [exact Hc |].
    constructor; [exact Hn | constructor].
  - unfold update.
    destruct (update_rows networking_messages role now set w rows)
      as [rows1 | e] eqn:E; [| split; assumption].
    destruct (unique_keys networking_messages rows1) eqn:Hk;
      [| split; assumption].
    split; [| exact Hk].
    apply update_rows_pointwise in E. apply Forall_forall. intros r1 Hr1.
    destruct (Forall2_In_r _ _ _ r1 E Hr1) as [r [Hr Hrel]].
    destruct (targeted networking_messages role UPDATE w r).
    + unfold update_row in Hrel.
      destruct (negb (may_write networking_messages role UPDATE _));
        [discriminate |].
      destruct (constraints networking_messages _) eqn:Hn; cbn [negb] in Hrel;
        [| discriminate].
      injection Hrel as <-. exact Hn.
    + subst r1. rewrite Forall_forall in Hc. apply Hc, Hr.
  - unfold delete. split.
    + rewrite Forall_forall in *. intros r Hr. apply filter_In in Hr.
      apply Hc, Hr.
    + apply unique_keys_filter, Hu.
Qed.

(** X14: after any sequence of inserts, updates and deletes, run by any
    role, every stored row of [networking_messages] satisfies the NOT NULL
    and CHECK constraints of the table and no two stored rows have the same
    id. *)
Theorem stored_rows_are_well_formed (stmts : list Statement) :
  well_formed (history stmts).
Proof.
  unfold history.
  assert (H : forall rows, well_formed rows ->
                well_formed (fold_left (fun rows s => execute s rows)
                                       stmts rows)).
  { induction stmts as [| s stmts IH]; intros rows Hrows; cbn [fold_left].
    - exact Hrows.
    - apply IH, execute_well_formed, Hrows. }
  apply H. split; [constructor | reflexivity].
Qed.

(** X15: an UPDATE on [networking_messages] that succeeds leaves every row
    it does not target as it was and stamps [updated_at] of every row it
    targets with the time of the statement, whatever its SET list assigns
    to that column. *)
Theorem update_stamps_updated_at
  (role : Role) (now : Timestamp) (set : NM.row -> NM.row)
  (w : NM.row -> option bool) (rows rows1 : list NM.row) :
  update networking_messages role now set w rows = Done rows1 ->
  Forall2
    (fun r r1 =>
       if targeted networking_messages role UPDATE w r
       then NM.updated_at r1 = Some now
       else r1 = r)
    rows rows1.
Proof.
  unfold update.
  destruct (update_rows networking_messages role now set w rows)
    as [rows2 | e] eqn:E; [| discriminate].
  destruct (unique_keys networking_messages rows2); [| discriminate].
  intros H. injection H as <-.
  apply update_rows_pointwise in E.
  eapply Forall2_impl; [| exact E].
  intros r r1. cbv beta.
  destruct (targeted networking_messages role UPDATE w r); [| trivial].
  unfold update_row.
  destruct (negb (may_write networking_messages role UPDATE _));
    [discriminate |].
  destruct (negb (constraints networking_messages _)); [discriminate |].
  intros H. injection H as <-. reflexivity.
Qed.

(** X16: [handle_new_user] is not declared SECURITY DEFINER, so the
    profile it inserts for a new account is checked against the INSERT
    policy of [profiles] as the session that created the account.  Run
    for any client session other than the new user itself, in particular
    one where nobody is signed in, the insert is refused and no profile is
    created.  It can only succeed for the new user or for a role exempt
    from row security, for which the row passes the policy and every NOT
    NULL constraint; it then adds exactly that profile, which names the
    new account as its user. *)
Theorem new_user_profile_needs_the_user_or_an_exempt_role
  (fresh : UUID) (now : Timestamp) (NEW : Accounts.auth_user)
  (rows : list Profiles.row) :
  let profile := Accounts.handle_new_user fresh now NEW in
  (forall auth,
      auth <> Some (Accounts.au_id NEW) ->
      insert Accounts.profiles (Client auth) profile rows
      = Failed RowSecurityViolation)
  /\ (forall role rows1,
         insert Accounts.profiles role profile rows = Done rows1 ->
         (role = BypassRLS \/ role = Client (Some (Accounts.au_id NEW)))
         /\ rows1 = rows ++ [ profile ]
         /\ Profiles.user_id profile = Some (Accounts.au_id NEW))
  /\ (forall role,
         role = BypassRLS \/ role = Client (Some (Accounts.au_id NEW)) ->
         may_write Accounts.profiles role INSERT profile = true
         /\ constraints Accounts.profiles profile = true).
Proof.
  intros profile.
  assert (Hp : forall auth,
             check_permits Profiles.policies INSERT auth profile
             = is_true (sql_eq auth (Some (Accounts.au_id NEW)))).
  { intros auth. unfold check_permits, with_check_of, using_of,
      Profiles.policies.
    cbn [existsb policy_for policy_using policy_with_check Command_eqb
         andb orb].
    rewrite orb_false_r. reflexivity. }
  assert (Hr : forall auth,
             auth <> Some (Accounts.au_id NEW) ->
             insert Accounts.profiles (Client auth) profile rows
             = Failed RowSecurityViolation).
  { intros auth Hne. unfold insert, may_write.
    cbn [policies Accounts.profiles]. rewrite Hp.
    destruct (is_true (sql_eq auth (Some (Accounts.au_id NEW)))) eqn:E;
      [| reflexivity].
    exfalso. apply Hne. apply is_true_sql_eq in E.
    destruct E as [u [-> Hu]]. rewrite Hu. reflexivity. }
  split; [exact Hr | split].
  - intros role rows1 Hins. split; [| split; [| reflexivity]].
    + destruct role as [auth |]; [| left; reflexivity].
      right. destruct auth as [u |].
      * destruct (string_eqb u (Accounts.au_id NEW)) eqn:E.
        -- apply string_eqb_eq in E. rewrite E. reflexivity.
        -- apply string_eqb_neq in E. rewrite Hr in Hins;
             [discriminate Hins |].
           intros H. injection H as H. exact (E H).
      * rewrite Hr in Hins; [discriminate Hins | discriminate].
    + unfold insert in Hins.
      destruct (negb (may_write Accounts.profiles role INSERT profile));
        [discriminate |].
      destruct (negb (constraints Accounts.profiles profile));
        [discriminate |].
      destruct (negb (unique_keys Accounts.profiles (rows ++ [profile])));
        [discriminate |].
      injection Hins as <-. reflexivity.
  - intros role [-> | ->]; (split; [| reflexivity]).
    + reflexivity.
    + unfold may_write. cbn [policies Accounts.profiles]. rewrite Hp.
      cbn [sql_eq is_true]. rewrite string_eqb_refl. reflexivity.
Qed.

End DatabaseMore.

Lemma other_users_rows_survive_witness :
  In (row_of (js "alice") false)
     (Database.execute
        (Database.Delete (Database.Client (Some (js "bob")))
                         (fun _ => Some true))
        [ row_of (js "alice") false ]).
Proof.
  apply (other_users_rows_survive (Some (js "bob"))).
  - reflexivity.
  - left. reflexivity.
  - vm_compute. reflexivity.
Defined.

Lemma written_rows_belong_to_caller_witness :
  In (second_row_of (js "bob")) [ row_of (js "alice") false ]
  \/ owned_by (Some (js "bob")) (second_row_of (js "bob")) = true.
Proof.
  apply (written_rows_belong_to_caller
           (Some (js "bob"))
           (Database.Insert (Database.Client (Some (js "bob")))
                            (second_row_of (js "bob")))
           [ row_of (js "alice") false ]).
  - reflexivity.
  - vm_compute. right. left. reflexivity.
Defined.

Lemma update_stamps_updated_at_witness :
  Forall2
    (fun r r1 =>
       if Database.targeted Database.networking_messages
            (Database.Client (Some (js "alice"))) Schema.UPDATE
            (fun _ => Some true) r
       then NM.updated_at r1 = Some 7
       else r1 = r)
    [ row_of (js "alice") false; second_row_of (js "bob") ]
    [ Schema.NetworkingMessages.update_updated_at_column 7
        (row_of (js "alice") false);
      second_row_of (js "bob") ].
Proof.
  apply (update_stamps_updated_at (Database.Client (Some (js "alice"))) 7
           (fun r => r) (fun _ => Some true)).
  vm_compute. reflexivity.
Defined.

(* ================================================================== *)
(** * More properties of the message history *)
(* ================================================================== *)

Section HistoryMore.

Import Schema Database MessageHistory HistoryHandlers.

Lemma not_targeted_unowned (s : Session) (message : NetworkingMessage)
  (c : Command) (r : NM.row) :
  owned_by (auth_uid s) r = false \/ NM.id r <> Some (id message) ->
  targeted networking_messages (Client (auth_uid s)) c (eq_id (id message)) r
  = false.
Proof.
  intros H.
  destruct (targeted networking_messages (Client (auth_uid s)) c
              (eq_id (id message)) r) eqn:E; [| reflexivity].
  exfalso. pose proof (messages_targeted _ _ _ _ E) as Hown.
  unfold targeted in E. rewrite !andb_true_iff in E.
  destruct E as [[Hw _] _]. unfold eq_id in Hw.
  apply is_true_sql_eq in Hw. destruct Hw as (u & Hu & Hm).
  destruct H as [H | H]; congruence.
Qed.

(** X17: when the signed-in user owns no row with the id of the message
    (nobody is signed in, the row is somebody else's, or it is gone), a
    delivered toggleFavorite or deleteMessage still reports success: the
    table is left as it was, and the local list is changed all the same,
    showing the message toggled or no longer showing it. *)
Theorem unowned_toggle_and_delete_change_only_the_list
  (e : Surroundings) (message : NetworkingMessage) (w : World) :
  owns_no_row (session e) message (messages_table (db w)) ->
  unique_keys networking_messages (messages_table (db w)) = true ->
  update_delivered (session e) = true ->
  delete_delivered e = true ->
  (toggle_succeeds (session e) message w
   /\ messages_table (db (toggleFavorite (session e) message w))
      = messages_table (db w)
   /\ messages (ui (toggleFavorite (session e) message w))
      = map (toggle_in_list message) (messages (ui w)))
  /\ (db (deleteMessage e message w) = db w
      /\ forall m, In m (messages (ui (deleteMessage e message w))) ->
                   id m <> id message).
Proof.
  intros Hno Hu Hupd Hdel.
  assert (Hok : update_is_favorite (session e) (negb (is_favorite message))
                  (id message) (messages_table (db w))
                = Done (messages_table (db w))).
  { unfold update_is_favorite, update. rewrite Hupd.
    rewrite update_rows_untargeted, Hu; [reflexivity |].
    intros r Hr. apply not_targeted_unowned, Hno, Hr. }
  split.
  - split; [exists (messages_table (db w)); exact Hok |].
    unfold toggleFavorite. rewrite Hok. split; reflexivity.
  - unfold deleteMessage, delete_by_id. rewrite Hdel.
    cbn [db ui messages setMessages]. split.
    + unfold Accounts.delete_messages.
      rewrite (filter_none _ (messages_table (db w))).
      * cbn [existsb negb]. unfold delete.
        rewrite !filter_all; [destruct (db w); reflexivity | |].
        -- intros a _. reflexivity.
        -- intros r Hr. rewrite not_targeted_unowned; [reflexivity |].
           apply Hno, Hr.
      * intros r Hr. apply not_targeted_unowned, Hno, Hr.
    + intros m Hm. apply filter_In in Hm. destruct Hm as [_ Hm].
      apply negb_true_iff, string_eqb_neq in Hm. exact Hm.
Qed.

Lemma toggle_in_list_twice (message m : NetworkingMessage) :
  toggle_in_list (with_is_favorite (negb (is_favorite message)) message)
                 (toggle_in_list message m)
  = m.
Proof.
  unfold toggle_in_list. cbn [id with_is_favorite].
  destruct (string_eqb (id m) (id message)) eqn:E.
  - cbn [id with_is_favorite]. rewrite E.
    destruct m; cbn. rewrite negb_involutive. reflexivity.
  - rewrite E. reflexivity.
Qed.

(** X18: toggling a message and then toggling it again, as the list shows
    it after the first toggle, restores the list of messages. *)
Theorem toggle_twice_restores_list
  (s1 s2 : Session) (message : NetworkingMessage) (w : World) :
  toggle_succeeds s1 message w ->
  toggle_succeeds s2 (with_is_favorite (negb (is_favorite message)) message)
                  (toggleFavorite s1 message w) ->
  messages
    (ui (toggleFavorite s2
           (with_is_favorite (negb (is_favorite message)) message)
           (toggleFavorite s1 message w)))
  = messages (ui w).
Proof.
  intros [rows1 H1] [rows2 H2].
  unfold toggleFavorite at 1. rewrite H2.
  cbn [ui messages setMessages].
  unfold toggleFavorite. rewrite H1. cbn [ui messages setMessages].
  rewrite map_map. rewrite <- (map_id (messages (ui w))) at 2.
  apply map_ext. intros m. apply (toggle_in_list_twice message m).
Qed.

Lemma filter_id_length (message : NetworkingMessage)
  (l : list NetworkingMessage) :
  NoDup (map id l) ->
  In message l ->
  S (length (filter (fun m => negb (string_eqb (id m) (id message))) l))
  = length l.
Proof.
  induction l as [| a l IH]; cbn [map filter length]; [intros _ [] |].
  intros Hnd Hin. inversion Hnd as [| x xs Hnotin Hnd']; subst.
  destruct (string_eqb (id a) (id message)) eqn:E; cbn [negb].
  - apply string_eqb_eq in E. rewrite filter_all; [reflexivity |].
    intros m Hm. apply negb_true_iff, string_eqb_neq. intros Heq.
    apply Hnotin. rewrite E, <- Heq. apply in_map, Hm.
  - cbn [length]. apply string_eqb_neq in E.
    destruct Hin as [-> | Hin]; [congruence |].
    rewrite <- (IH Hnd' Hin). reflexivity.
Qed.

(** X19: a delivered deleteMessage removes from the list exactly the
    messages with the id of the message, so with unique ids the list gets
    one shorter; from the table it removes exactly the rows with that id
    that the signed-in user owns; and it leaves no analytics row behind
    that references a removed message. *)
Theorem deleteMessage_removes_the_message
  (e : Surroundings) (message : NetworkingMessage) (w : World) :
  delete_delivered e = true ->
  let w' := deleteMessage e message w in
  (forall m, In m (messages (ui w'))
             <-> In m (messages (ui w)) /\ id m <> id message)
  /\ (NoDup (map id (messages (ui w))) ->
      In message (messages (ui w)) ->
      S (length (messages (ui w'))) = length (messages (ui w)))
  /\ (forall r, In r (messages_table (db w'))
                <-> In r (messages_table (db w))
                    /\ ~ (NM.id r = Some (id message)
                          /\ owned_by (auth_uid (session e)) r = true))
  /\ (forall a r, In a (analytics_table (db w')) ->
                  In r (messages_table (db w)) ->
                  ~ In r (messages_table (db w')) ->
                  is_true (sql_eq (MA.message_id a) (NM.id r)) = false).
Proof.
  intros Hdel w'. subst w'. unfold deleteMessage, delete_by_id.
  rewrite Hdel. cbn [db ui messages setMessages].
  unfold Accounts.delete_messages. cbn [messages_table analytics_table].
  assert (Ht : forall r,
             targeted networking_messages (Client (auth_uid (session e)))
                      DELETE (eq_id (id message)) r = true
             <-> NM.id r = Some (id message)
                 /\ owned_by (auth_uid (session e)) r = true).
  { intros r. unfold targeted, may_use. cbn [policies networking_messages].
    rewrite !messages_using, !andb_true_iff. unfold eq_id. split.
    - intros [[Hw Ho] _]. split; [| exact Ho].
      apply is_true_sql_eq in Hw. destruct Hw as (u & Hu & Hm). congruence.
    - intros [Hid Ho]. rewrite Hid. cbn [sql_eq is_true].
      rewrite string_eqb_refl. repeat split; assumption. }
  split; [| split; [| split]].
  - intros m. rewrite filter_In, negb_true_iff, string_eqb_neq. reflexivity.
  - apply filter_id_length.
  - intros r. unfold delete. rewrite filter_In, negb_true_iff.
    rewrite <- Ht. split; intros [H1 H2]; split; try assumption.
    + rewrite H2. discriminate.
    + destruct (targeted _ _ _ _ r); [exfalso; apply H2 |]; reflexivity.
  - intros a r Ha Hr Hgone. apply filter_In in Ha. destruct Ha as [_ Ha].
    apply negb_true_iff in Ha.
    destruct (is_true (sql_eq (MA.message_id a) (NM.id r))) eqn:E;
      [| reflexivity].
    exfalso. apply not_true_iff_false in Ha. apply Ha.
    apply existsb_exists. exists r. split; [| exact E].
    apply filter_In. split; [exact Hr |].
    destruct (targeted networking_messages _ DELETE _ r) eqn:Et;
      [reflexivity |].
    exfalso. apply Hgone. unfold delete. apply filter_In.
    split; [exact Hr |]. rewrite Et. reflexivity.
Qed.

Lemma analytics_check auth (r : MA.row) :
  check_permits MA.policies INSERT auth r
  = is_true (sql_eq auth (MA.user_id r)).
Proof.
  unfold check_permits, with_check_of, using_of, MA.policies.
  cbn [existsb policy_for policy_using policy_with_check Command_eqb
       andb orb].
  rewrite orb_false_r. reflexivity.
Qed.

Lemma track_unfold (s : Session) (message : NetworkingMessage)
  (action : jsstring) (d : Db) :
  track s message action d
  = if insert_delivered s
    then match insert_analytics (Client (auth_uid s))
                                (tracked_row s message action) d with
         | Done rows1 => rows1
         | Failed _ => analytics_table d
         end
    else analytics_table d.
Proof. reflexivity. Qed.

Lemma references_stored_message (s : Session) (message : NetworkingMessage)
  (action : jsstring) (stored : list NM.row) :
  references_message (tracked_row s message action) stored = true
  <-> exists r, In r stored /\ NM.id r = Some (id message).
Proof.
  unfold references_message, tracked_row. cbn [MA.message_id].
  rewrite existsb_exists. split.
  - intros [r [Hin Hr]]. exists r. split; [exact Hin |].
    apply is_true_sql_eq in Hr. destruct Hr as [u [Hu Hi]].
    injection Hu as <-. exact Hi.
  - intros [r [Hin Hr]]. exists r. split; [exact Hin |].
    rewrite Hr. cbn [sql_eq is_true]. rewrite string_eqb_refl. reflexivity.
Qed.

(** X20: tracking an action only ever appends to the usage analytics, and
    what it appends is one row for the signed-in user, the message and the
    action, referring to a message that is stored.  When nobody is signed
    in it records nothing, and neither when the message is no longer
    stored: the foreign key refuses the row and the handlers do not look
    at the result. *)
Theorem track_appends_an_owned_row
  (s : Session) (message : NetworkingMessage) (action : jsstring)
  (d : Db) :
  (track s message action d = analytics_table d
   \/ (exists u, auth_uid s = Some u)
      /\ (exists r, In r (messages_table d) /\ NM.id r = Some (id message))
      /\ track s message action d
         = analytics_table d ++ [ tracked_row s message action ])
  /\ (auth_uid s = None -> track s message action d = analytics_table d)
  /\ ((forall r, In r (messages_table d) -> NM.id r <> Some (id message)) ->
      track s message action d = analytics_table d).
Proof.
  rewrite track_unfold. unfold insert_analytics, insert, may_write.
  cbn [policies message_analytics]. rewrite analytics_check.
  cbn [tracked_row MA.user_id].
  split; [| split].
  - destruct (insert_delivered s); [| left; reflexivity].
    destruct (auth_uid s) as [u |] eqn:Eu; [| left; reflexivity].
    cbn [sql_eq is_true]. rewrite string_eqb_refl. cbn [negb].
    destruct (negb (constraints message_analytics _)); [left; reflexivity |].
    destruct (negb (unique_keys message_analytics _));
      [left; reflexivity |].
    destruct (references_message _ (messages_table d)) eqn:Ef;
      [| left; reflexivity].
    right. split; [exists u; reflexivity |]. split; [| reflexivity].
    apply (references_stored_message s message action).
    unfold tracked_row. rewrite Eu. exact Ef.
  - intros ->. destruct (insert_delivered s); reflexivity.
  - intros Hgone.
    destruct (insert_delivered s); [| reflexivity].
    destruct (negb (is_true (sql_eq (auth_uid s) (auth_uid s))));
      [reflexivity |].
    destruct (negb (constraints message_analytics _)); [reflexivity |].
    destruct (negb (unique_keys message_analytics _)); [reflexivity |].
    destruct (references_message _ (messages_table d)) eqn:Ef;
      [| reflexivity].
    exfalso.
    apply (references_stored_message s message action) in Ef.
    destruct Ef as [r [Hin Hr]]. exact (Hgone r Hin Hr).
Qed.

(** Alice copies the message of her history: one row is recorded.  Had
    the message been deleted meanwhile, none would be. *)
Example track_records_a_stored_message :
  track alice_session sarah (js "copied") (db alice_world)
  = [ tracked_row alice_session sarah (js "copied") ]
  /\ track alice_session sarah (js "copied")
           {| messages_table := []; analytics_table := [] |}
     = [].
Proof. split; vm_compute; reflexivity. Qed.

(** X21: the history has a label, an icon and a colour for a message type
    exactly when the type is one of the four the CHECK constraint accepts;
    hence for every row the table can ever hold, the lookup of its
    message_type in [messageTypeLabels] finds an entry. *)
Theorem stored_types_have_labels :
  (forall key, messageTypeLabels key <> None
               <-> In key NM.message_type_values)
  /\ (forall (stmts : list Statement) (r : NM.row),
         In r (history stmts) ->
         exists key info,
           NM.message_type r = Some key
           /\ messageTypeLabels key = Some info).
Proof.
  split.
  - intros key. unfold messageTypeLabels, NM.message_type_values.
    cbn [In].
    destruct (string_eqb key (js "linkedin")) eqn:E1;
      [apply string_eqb_eq in E1; split; [auto | discriminate] |].
    destruct (string_eqb key (js "informational")) eqn:E2;
      [apply string_eqb_eq in E2; split; [auto | discriminate] |].
    destruct (string_eqb key (js "recruiter-followup")) eqn:E3;
      [apply string_eqb_eq in E3; split; [auto | discriminate] |].
    destruct (string_eqb key (js "mentor-request")) eqn:E4;
      [apply string_eqb_eq in E4; split; [auto 6 | discriminate] |].
    apply string_eqb_neq in E1, E2, E3, E4.
    split; [congruence |].
    intros [H | [H | [H | [H | []]]]]; congruence.
  - intros stmts r Hr.
    pose proof (statements_valid stmts [] (Forall_nil _)) as Hv.
    rewrite Forall_forall in Hv. destruct (Hv r Hr) as [t Ht].
    exists (NetworkingCoach.MessageType_string t).
    destruct t; eexists; (split; [exact Ht | vm_compute; reflexivity]).
Qed.

End HistoryMore.

Lemma unusable_content_is_an_error_witness :
  let g := EdgeFunction.prop (EdgeFunction.VObject message_without_content)
                             (EdgeFunction.Named (js "content")) in
  (EdgeFunction.truthy g = false ->
   EdgeFunction.serve engine
     (world_answering (upstream_ok completion_without_content)) post_request
   = error_response (js "OpenAI returned an empty message"))
  /\ (EdgeFunction.truthy g = true ->
      (forall s, g <> EdgeFunction.VString s) ->
      EdgeFunction.serve engine
        (world_answering (upstream_ok completion_without_content))
        post_request
      = error_response (EdgeFunction.is_not_a_function engine)).
Proof.
  apply (unusable_content_is_an_error engine
           (world_answering (upstream_ok completion_without_content))
           post_request (upstream_ok completion_without_content)
           completion_without_content).
  - split; [vm_compute; discriminate |].
    eexists _, _, _. repeat split; reflexivity.
  - reflexivity.
  - reflexivity.
  - vm_compute. reflexivity.
Defined.


Lemma unowned_toggle_and_delete_change_only_the_list_witness :
  (MessageHistory.toggle_succeeds bob_session sarah alice_world
   /\ Database.messages_table
        (MessageHistory.db
           (MessageHistory.toggleFavorite bob_session sarah alice_world))
      = Database.messages_table (MessageHistory.db alice_world)
   /\ MessageHistory.messages
        (MessageHistory.ui
           (MessageHistory.toggleFavorite bob_session sarah alice_world))
      = map (toggle_in_list sarah)
            (MessageHistory.messages (MessageHistory.ui alice_world)))
  /\ (MessageHistory.db
        (HistoryHandlers.deleteMessage (surroundings bob_session) sarah
                                       alice_world)
      = MessageHistory.db alice_world
      /\ forall m,
           In m (MessageHistory.messages
                   (MessageHistory.ui
                      (HistoryHandlers.deleteMessage
                         (surroundings bob_session) sarah alice_world))) ->
           MessageHistory.id m <> MessageHistory.id sarah).
Proof.
  apply (unowned_toggle_and_delete_change_only_the_list
           (surroundings bob_session) sarah alice_world).
  - intros r [<- | []]. left. vm_compute. reflexivity.
  - vm_compute. reflexivity.
  - reflexivity.
  - reflexivity.
Defined.

Lemma toggle_twice_restores_list_witness :
  MessageHistory.messages
    (MessageHistory.ui
       (MessageHistory.toggleFavorite alice_session
          (MessageHistory.with_is_favorite
             (negb (MessageHistory.is_favorite sarah)) sarah)
          (MessageHistory.toggleFavorite alice_session sarah alice_world)))
  = MessageHistory.messages (MessageHistory.ui alice_world).
Proof.
  apply toggle_twice_restores_list.
  - eexists. vm_compute. reflexivity.
  - eexists. vm_compute. reflexivity.
Defined.

Lemma deleteMessage_removes_the_message_witness :
  ~ In sarah
       (MessageHistory.messages
          (MessageHistory.ui
             (HistoryHandlers.deleteMessage (surroundings alice_session)
                                            sarah alice_world))).
Proof.
  destruct (deleteMessage_removes_the_message (surroundings alice_session)
              sarah alice_world eq_refl) as [H _].
  intros Hin. apply H in Hin. destruct Hin as [_ Hne]. apply Hne.
  reflexivity.
Defined.
